(** * sam_sexing: sex estimation from samtools idxstats read counts

    A shallow embedding of [main] of [sam_sexing.py] (the per-file scan of
    the idxstats lines, the classification of every sample, the table that is
    written at the end) and the properties of the specification checked
    against it.

    Python values are modelled as the script has them:
    - [int] is [Z]; [float] is the kernel's binary64 [float] ([PrimFloat]);
    - [None] is [None] of an [option];
    - a local variable of [main] that has not been assigned yet is [Unbound];
      reading it raises [UnboundLocalError];
    - an exception that leaves [main] is a [Raise] result: nothing is written
      to [sexing.txt] in that case, since the table is written after the loop.

    Argument parsing, the console messages and the optional plots are outside
    the model. *)

From Stdlib Require Import ZArith List String Ascii Bool Lia Floats.
Import ListNotations.

Local Open Scope Z_scope.
Local Open Scope string_scope.
Local Open Scope list_scope.

(** ** Exceptions and results *)

Inductive exn : Type :=
| IndexError          (* [line.split('\t')[i]] with too few fields *)
| ValueError          (* [int(s)] on a string that is not an integer *)
| OverflowError       (* [float(n)] on an integer too large for a float *)
| ZeroDivisionError   (* float division by zero *)
| UnboundLocalError   (* a local variable read before any assignment *)
| ConfigurationError. (* [Exception("You must specify --lower_threshold and
                          --upper_threshold when using --two_thresholds
                          option")] *)

Inductive result (A : Type) : Type :=
| Ok (a : A)
| Raise (e : exn).

Arguments Ok {A} a.
Arguments Raise {A} e.

Definition bind {A B : Type} (r : result A) (k : A -> result B) : result B :=
  match r with
  | Ok a => k a
  | Raise e => Raise e
  end.

Notation "x <- r ;; k" := (bind r (fun x => k))
  (at level 61, r at next level, right associativity).
Notation "' p <- r ;; k" := (bind r (fun x => let 'p := x in k))
  (at level 61, p pattern, r at next level, right associativity).

(** A local variable of [main]: not assigned yet, or holding a value. *)
Inductive local (A : Type) : Type :=
| Unbound
| Bound (v : A).

Arguments Unbound {A}.
Arguments Bound {A} v.

Definition read {A : Type} (x : local A) : result A :=
  match x with
  | Unbound => Raise UnboundLocalError
  | Bound v => Ok v
  end.

(** ** The Python primitives the script calls *)

Module Py.

(** [sub in s] on strings. *)
Fixpoint contains (sub s : string) : bool :=
  prefix sub s
  || match s with
     | EmptyString => false
     | String _ s' => contains sub s'
     end.

Definition tab : ascii := ascii_of_nat 9.
Definition newline : ascii := ascii_of_nat 10.

(** [s.split('\t')]: the fields between tabs; never empty. *)
Fixpoint split_tab (s : string) : list string :=
  match s with
  | EmptyString => [EmptyString]
  | String c s' =>
      if Ascii.eqb c tab then EmptyString :: split_tab s'
      else match split_tab s' with
           | f :: fs => String c f :: fs
           | [] => [String c EmptyString]
           end
  end.

(** [xs[i]] on a list, for an index [i >= 0]. *)
Definition index {A : Type} (xs : list A) (i : nat) : result A :=
  match nth_error xs i with
  | Some x => Ok x
  | None => Raise IndexError
  end.

(** The white space that [int] strips on both sides of an ASCII string:
    tab, line feed, vertical tab, form feed, carriage return and space. *)
Definition is_space (c : ascii) : bool :=
  let n := nat_of_ascii c in
  ((9 <=? n)%nat && (n <=? 13)%nat) || (n =? 32)%nat.

Definition digit_of (c : ascii) : option Z :=
  let n := nat_of_ascii c in
  if ((48 <=? n)%nat && (n <=? 57)%nat) then Some (Z.of_nat (n - 48))
  else None.

Fixpoint lstrip (cs : list ascii) : list ascii :=
  match cs with
  | c :: cs' => if is_space c then lstrip cs' else cs
  | [] => []
  end.

Definition strip (cs : list ascii) : list ascii :=
  rev (lstrip (rev (lstrip cs))).

(** Decimal digits, single underscores allowed between two digits.
    [prev] tells whether the character just read was a digit. *)
Fixpoint digits (cs : list ascii) (acc : Z) (prev : bool) : option Z :=
  match cs with
  | [] => if prev then Some acc else None
  | c :: cs' =>
      match digit_of c with
      | Some d => digits cs' (10 * acc + d) true
      | None =>
          if Ascii.eqb c "_"%char && prev then digits cs' acc false
          else None
      end
  end.

(** The default of [sys.int_max_str_digits] (CPython 3.11 and later): a
    decimal string of more digits is refused. *)
Definition max_str_digits : Z := 4300.

Definition is_digit (c : ascii) : bool :=
  match digit_of c with
  | Some _ => true
  | None => false
  end.

(** [int(s)] for a string of ASCII characters: optional white space, an
    optional sign, decimal digits, at most [max_str_digits] of them.
    (Python also reads the decimal digits of other scripts; the files of
    [samtools idxstats] are ASCII.) *)
Definition int (s : string) : result Z :=
  let '(negative, body) :=
    match strip (list_ascii_of_string s) with
    | c :: cs =>
        if Ascii.eqb c "-"%char then (true, cs)
        else if Ascii.eqb c "+"%char then (false, cs)
        else (false, c :: cs)
    | [] => (false, [])
    end in
  match digits body 0 false with
  | Some z =>
      if (max_str_digits <? Z.of_nat (List.length (filter is_digit body)))%Z
      then Raise ValueError
      else Ok (if negative then Z.opp z else z)
  | None => Raise ValueError
  end.

(** [float(n)] for an integer [n]: the nearest binary64 value, ties to
    even; an integer beyond the range of the finite floats raises. *)
Definition float (n : Z) : result PrimFloat.float :=
  let f := SF2Prim (binary_normalize prec emax n 0 false) in
  if is_infinity f then Raise OverflowError else Ok f.

(** [a / b] on floats. *)
Definition truediv (a b : PrimFloat.float) : result PrimFloat.float :=
  if PrimFloat.eqb b 0%float then Raise ZeroDivisionError
  else Ok (PrimFloat.div a b).

(** [a < b] and [a > b] on floats. *)
Definition lt (a b : PrimFloat.float) : bool := PrimFloat.ltb a b.
Definition gt (a b : PrimFloat.float) : bool := PrimFloat.ltb b a.
Definition le (a b : PrimFloat.float) : bool := PrimFloat.leb a b.

(** [name.startswith('.')]. *)
Definition startswith_dot (name : string) : bool := prefix "." name.

(** [os.path.splitext(name)] for a directory entry (no separator in it):
    the extension starts at the last dot, unless only dots precede it. *)
Fixpoint splitext_aux (stem : list ascii) (rest : list ascii) (seen : bool)
  : option (list ascii * list ascii) :=
  (* [stem] is what was read so far, reversed; [seen] tells whether a
     character other than a dot occurs in it. The last split found wins. *)
  match rest with
  | [] => None
  | c :: rest' =>
      let later := splitext_aux (c :: stem) rest'
                     (seen || negb (Ascii.eqb c "."%char)) in
      match later with
      | Some p => Some p
      | None =>
          if Ascii.eqb c "."%char && seen then Some (rev stem, rest)
          else None
      end
  end.

Definition splitext (name : string) : string * string :=
  match splitext_aux [] (list_ascii_of_string name) false with
  | Some (root, ext) => (string_of_list_ascii root, string_of_list_ascii ext)
  | None => (name, EmptyString)
  end.

End Py.

(** ** The data of [main] *)

(** [args], as [parser.parse_args()] returns it (the fields the loop and the
    table use). *)
Record args : Type := {
  args_ychrom : string;
  args_xchrom : string;
  args_threshold : option float;
  args_min_y : Z;
  args_min_x : Z;
  args_two_thresholds : bool;
  args_upper_threshold : option float;
  args_lower_threshold : option float;
  args_ext : string
}.

Inductive sex_label : Type := male | female | undetermined.

(** The local variables of [main] that the loop assigns. They are locals of
    the function, not of the loop body: a value assigned while one file is
    processed is still there when the next file is. [nreads_ychrom] and
    [nreads_xchrom] are reset to [None] for every file (lines 143-144). *)
Record locals : Type := {
  nreads_ychrom : option Z;
  nreads_xchrom : option Z;
  seqlen_ychrom : local Z;
  seqlen_xchrom : local Z;
  sex : local sex_label;
  ratio : local (option float);
  threshold : local (option float)
}.

(** The locals when the loop is entered: none of them assigned. *)
Definition entry_locals : locals :=
  {| nreads_ychrom := None; nreads_xchrom := None;
     seqlen_ychrom := Unbound; seqlen_xchrom := Unbound;
     sex := Unbound; ratio := Unbound; threshold := Unbound |}.

Definition set_nreads_ychrom (v : option Z) (fr : locals) : locals :=
  {| nreads_ychrom := v; nreads_xchrom := nreads_xchrom fr;
     seqlen_ychrom := seqlen_ychrom fr; seqlen_xchrom := seqlen_xchrom fr;
     sex := sex fr; ratio := ratio fr; threshold := threshold fr |}.

Definition set_nreads_xchrom (v : option Z) (fr : locals) : locals :=
  {| nreads_ychrom := nreads_ychrom fr; nreads_xchrom := v;
     seqlen_ychrom := seqlen_ychrom fr; seqlen_xchrom := seqlen_xchrom fr;
     sex := sex fr; ratio := ratio fr; threshold := threshold fr |}.

Definition set_seqlen_ychrom (v : Z) (fr : locals) : locals :=
  {| nreads_ychrom := nreads_ychrom fr; nreads_xchrom := nreads_xchrom fr;
     seqlen_ychrom := Bound v; seqlen_xchrom := seqlen_xchrom fr;
     sex := sex fr; ratio := ratio fr; threshold := threshold fr |}.

Definition set_seqlen_xchrom (v : Z) (fr : locals) : locals :=
  {| nreads_ychrom := nreads_ychrom fr; nreads_xchrom := nreads_xchrom fr;
     seqlen_ychrom := seqlen_ychrom fr; seqlen_xchrom := Bound v;
     sex := sex fr; ratio := ratio fr; threshold := threshold fr |}.

Definition set_sex (v : sex_label) (fr : locals) : locals :=
  {| nreads_ychrom := nreads_ychrom fr; nreads_xchrom := nreads_xchrom fr;
     seqlen_ychrom := seqlen_ychrom fr; seqlen_xchrom := seqlen_xchrom fr;
     sex := Bound v; ratio := ratio fr; threshold := threshold fr |}.

Definition set_ratio (v : option float) (fr : locals) : locals :=
  {| nreads_ychrom := nreads_ychrom fr; nreads_xchrom := nreads_xchrom fr;
     seqlen_ychrom := seqlen_ychrom fr; seqlen_xchrom := seqlen_xchrom fr;
     sex := sex fr; ratio := Bound v; threshold := threshold fr |}.

Definition set_threshold (v : option float) (fr : locals) : locals :=
  {| nreads_ychrom := nreads_ychrom fr; nreads_xchrom := nreads_xchrom fr;
     seqlen_ychrom := seqlen_ychrom fr; seqlen_xchrom := seqlen_xchrom fr;
     sex := sex fr; ratio := ratio fr; threshold := Bound v |}.

(** One element of [data]:
    [[sample_name, sex, nreads_ychrom, nreads_xchrom, ratio, threshold]]. *)
Record row : Type := {
  row_id : string;
  row_sex : sex_label;
  row_nreads_ychrom : option Z;
  row_nreads_xchrom : option Z;
  row_ratio : option float;
  row_threshold : option float
}.

(** A directory entry that [open] can read: its name and its lines, each
    with its line end, as iterating over the file yields them. *)
Record entry : Type := {
  file_name : string;
  file_lines : list string
}.

(** ** Lines 146-152: the scan of one file *)

(** [int(line.split('\t')[i])]. *)
Definition int_field (line : string) (i : nat) : result Z :=
  s <- Py.index (Py.split_tab line) i ;; Py.int s.

(** The body of [for line in lines]. *)
Definition scan_line (a : args) (fr : locals) (line : string) : result locals :=
  if Py.contains (args_ychrom a) line then
    n <- int_field line 2 ;;
    let fr := set_nreads_ychrom (Some n) fr in
    l <- int_field line 1 ;;
    Ok (set_seqlen_ychrom l fr)
  else if Py.contains (args_xchrom a) line then
    n <- int_field line 2 ;;
    let fr := set_nreads_xchrom (Some n) fr in
    l <- int_field line 1 ;;
    Ok (set_seqlen_xchrom l fr)
  else Ok fr.

Fixpoint scan_lines (a : args) (fr : locals) (lines : list string)
  : result locals :=
  match lines with
  | [] => Ok fr
  | line :: lines' => fr' <- scan_line a fr line ;; scan_lines a fr' lines'
  end.

(** Lines 143-152: both counts set to [None], then the scan. *)
Definition scan_file (a : args) (fr : locals) (lines : list string)
  : result locals :=
  scan_lines a (set_nreads_xchrom None (set_nreads_ychrom None fr)) lines.

(** ** Lines 157-201: the classification of one sample *)

(** Line 167, negated: both counts reach their minimum. *)
Definition floors_met (a : args) (ny nx : Z) : bool :=
  negb ((ny <? args_min_y a)%Z || (nx <? args_min_x a)%Z).

(** Line 171: [float(nreads_ychrom) / float(nreads_xchrom)]. *)
Definition compute_ratio (ny nx : Z) : result float :=
  fy <- Py.float ny ;;
  fx <- Py.float nx ;;
  Py.truediv fy fx.

(** Lines 183-188. *)
Definition two_threshold_sex (upper lower r : float) : sex_label :=
  if Py.lt upper r then male
  else if Py.gt lower r then female
  else undetermined.

(** Lines 193-197: the threshold of the single-threshold mode. *)
Definition single_threshold (a : args) (fr : locals) : result float :=
  match args_threshold a with
  | None =>
      sy <- read (seqlen_ychrom fr) ;;
      fy <- Py.float sy ;;
      let num := PrimFloat.mul fy 0.25%float in
      sx <- read (seqlen_xchrom fr) ;;
      fx <- Py.float sx ;;
      Py.truediv num fx
  | Some t => Ok t
  end.

(** Lines 198-201. *)
Definition single_threshold_sex (t r : float) : sex_label :=
  if Py.lt t r then male else female.

Definition classify (a : args) (fr : locals) : result locals :=
  match nreads_ychrom fr, nreads_xchrom fr with
  | Some ny, Some nx =>
      if (ny <? args_min_y a)%Z || (nx <? args_min_x a)%Z then
        Ok (set_sex undetermined fr)
      else
        r <- compute_ratio ny nx ;;
        let fr := set_ratio (Some r) fr in
        if args_two_thresholds a then
          match args_lower_threshold a, args_upper_threshold a with
          | Some lower, Some upper =>
              Ok (set_sex (two_threshold_sex upper lower r) fr)
          | _, _ => Raise ConfigurationError
          end
        else
          t <- single_threshold a fr ;;
          let fr := set_threshold (Some t) fr in
          Ok (set_sex (single_threshold_sex t r) fr)
  | _, _ =>
      Ok (set_threshold None (set_ratio None (set_sex undetermined fr)))
  end.

(** Lines 203-204: the row built from the locals; every one of them is
    read, so one that was never assigned raises. *)
Definition make_row (sample_name : string) (fr : locals) : result row :=
  s <- read (sex fr) ;;
  r <- read (ratio fr) ;;
  t <- read (threshold fr) ;;
  Ok {| row_id := sample_name; row_sex := s;
        row_nreads_ychrom := nreads_ychrom fr;
        row_nreads_xchrom := nreads_xchrom fr;
        row_ratio := r; row_threshold := t |}.

(** Lines 140-204: one file that passed the filter. *)
Definition process_sample (a : args) (fr : locals) (e : entry)
  : result (locals * row) :=
  let sample_name := fst (Py.splitext (file_name e)) in
  fr1 <- scan_file a fr (file_lines e) ;;
  fr2 <- classify a fr1 ;;
  rw <- make_row sample_name fr2 ;;
  Ok (fr2, rw).

(** Lines 136-137: hidden files and files of another extension are skipped. *)
Definition selected (a : args) (e : entry) : bool :=
  negb (Py.startswith_dot (file_name e))
  && String.eqb (snd (Py.splitext (file_name e))) (args_ext a).

(** Lines 133-204: the loop over the directory, in the order of
    [os.listdir]. [data] grows at its end. *)
Fixpoint loop (a : args) (fr : locals) (data : list row) (es : list entry)
  : result (locals * list row) :=
  match es with
  | [] => Ok (fr, data)
  | e :: es' =>
      if selected a e then
        '(fr', rw) <- process_sample a fr e ;;
        loop a fr' (data ++ [rw]) es'
      else loop a fr data es'
  end.

(** ** Lines 206-218: the table *)

Definition col_names : list string :=
  ["id"; "sex"; "nreads_ychrom"; "nreads_xchrom"; "ratio"; "threshold"].

(** [df_sexing["threshold"].dropna()]: [None] and NaN are dropped. *)
Definition dropna (xs : list (option float)) : list float :=
  flat_map (fun x => match x with
                     | Some f => if PrimFloat.is_nan f then [] else [f]
                     | None => []
                     end) xs.

(** [.unique()]: the distinct values, by [==], in order of first
    appearance. *)
Definition unique_step (seen : list float) (x : float) : list float :=
  if existsb (PrimFloat.eqb x) seen then seen else seen ++ [x].

Definition unique (xs : list float) : list float :=
  fold_left unique_step xs [].

(** Line 210: [len(df_sexing["threshold"].dropna().unique()) == 1]. *)
Definition single_threshold_value (data : list row) : bool :=
  (List.length (unique (dropna (map row_threshold data))) =? 1)%nat.

(** A cell of the data frame. *)
Inductive cell : Type :=
| CStr (s : string)
| CSex (s : sex_label)
| CInt (n : option Z)
| CFloat (f : option float).

Definition cells (r : row) : list cell :=
  [CStr (row_id r); CSex (row_sex r);
   CInt (row_nreads_ychrom r); CInt (row_nreads_xchrom r);
   CFloat (row_ratio r); CFloat (row_threshold r)].

(** What [to_csv] writes to [sexing.txt]: the header and one line of cells
    per row. *)
Record table : Type := {
  header : list string;
  body : list (list cell)
}.

(** [df.drop(name, axis=1)]: the column of that name leaves the header and
    every row. *)
Definition drop_column {A : Type} (name : string) (cols : list string)
  (xs : list A) : list A :=
  map snd (filter (fun p => negb (String.eqb (fst p) name)) (combine cols xs)).

(** Lines 206-218. In the first branch the local [threshold] is read for
    the console message of line 214, after [to_csv]; once the loop has added
    a row that read cannot raise (lemma [loop_threshold_bound] below), so
    the order of the two does not show in the result of [main]. *)
Definition write_table (fr : locals) (data : list row) : result table :=
  if single_threshold_value data then
    _ <- read (threshold fr) ;;
    Ok {| header := drop_column "threshold" col_names col_names;
          body := map (fun r => drop_column "threshold" col_names (cells r))
                    data |}
  else
    Ok {| header := col_names; body := map cells data |}.

(** [main], from the loop to the table, on the entries of the input
    directory. *)
Definition main (a : args) (es : list entry) : result table :=
  '(fr, data) <- loop a entry_locals [] es ;;
  write_table fr data.

(** ** Notions the properties are stated with *)

(** The line is attributed to the Y chromosome (line 147), or to the X
    chromosome (line 150, reached only when line 147 fails). *)
Definition attributed_y (a : args) (line : string) : bool :=
  Py.contains (args_ychrom a) line.

Definition attributed_x (a : args) (line : string) : bool :=
  negb (Py.contains (args_ychrom a) line) && Py.contains (args_xchrom a) line.

(** The read count (third field) and the sequence length (second field) of
    a line. *)
Definition stats_of (line : string) : result (Z * Z) :=
  n <- int_field line 2 ;;
  l <- int_field line 1 ;;
  Ok (n, l).

(** A line the scan reads numbers from has them. *)
Definition well_formed (a : args) (line : string) : bool :=
  if attributed_y a line || attributed_x a line then
    match stats_of line with
    | Ok _ => true
    | Raise _ => false
    end
  else true.

Definition first_match (p : string -> bool) (lines : list string)
  : option string :=
  find p lines.

Definition last_match (p : string -> bool) (lines : list string)
  : option string :=
  find p (rev lines).

(** The statistics a file holds for a chromosome, taken from the line
    [pick] selects among the lines attributed to it. *)
Definition stats_at (pick : (string -> bool) -> list string -> option string)
  (p : string -> bool) (lines : list string) : option (Z * Z) :=
  match pick p lines with
  | Some line =>
      match stats_of line with
      | Ok nl => Some nl
      | Raise _ => None
      end
  | None => None
  end.

(** What the locals retain for Y and for X: read count and length. *)
Definition retained_y (fr : locals) : option Z * local Z :=
  (nreads_ychrom fr, seqlen_ychrom fr).

Definition retained_x (fr : locals) : option Z * local Z :=
  (nreads_xchrom fr, seqlen_xchrom fr).

(** What the locals hold for a chromosome after a scan: the statistics of
    the last line attributed to it, or what they held before when there is
    none. *)
Definition after_scan (found : option (Z * Z)) (before : option Z * local Z)
  : option Z * local Z :=
  match found with
  | Some (n, l) => (Some n, Bound l)
  | None => before
  end.

(** The ratio of a sample, when line 171 is reached for it and returns:
    both names were found in its file and both counts reach their minimum. *)
Definition sample_ratio (a : args) (fr : locals) (e : entry) : option float :=
  match scan_file a fr (file_lines e) with
  | Ok fr1 =>
      match nreads_ychrom fr1, nreads_xchrom fr1 with
      | Some ny, Some nx =>
          if floors_met a ny nx then
            match compute_ratio ny nx with
            | Ok r => Some r
            | Raise _ => None
            end
          else None
      | _, _ => None
      end
  | Raise _ => None
  end.

(** The threshold as the specification writes it:
    [0.25 * seqlen_y / seqlen_x]. *)
Definition auto_threshold (seqlen_y seqlen_x : Z) : result float :=
  fy <- Py.float seqlen_y ;;
  fx <- Py.float seqlen_x ;;
  Py.truediv (PrimFloat.mul 0.25%float fy) fx.

(** The thresholds of a batch that are not absent. *)
Definition defined_thresholds (data : list row) : list float :=
  dropna (map row_threshold data).

(** ** Inputs used in the examples *)

Definition line_of (fields : list string) : string :=
  (String.concat (String Py.tab EmptyString) fields
   ++ String Py.newline EmptyString)%string.

Definition default_args : args :=
  {| args_ychrom := "chrY"; args_xchrom := "chrX"; args_threshold := None;
     args_min_y := 0; args_min_x := 1; args_two_thresholds := false;
     args_upper_threshold := None; args_lower_threshold := None;
     args_ext := ".txt" |}.

(** [--two_thresholds] with no bound given. *)
Definition two_unset_args : args :=
  {| args_ychrom := "chrY"; args_xchrom := "chrX"; args_threshold := None;
     args_min_y := 0; args_min_x := 1; args_two_thresholds := true;
     args_upper_threshold := None; args_lower_threshold := None;
     args_ext := ".txt" |}.

(** [--two_thresholds --upper_threshold 0.25 --lower_threshold 0.125]. *)
Definition two_args : args :=
  {| args_ychrom := "chrY"; args_xchrom := "chrX"; args_threshold := None;
     args_min_y := 0; args_min_x := 1; args_two_thresholds := true;
     args_upper_threshold := Some 0.25%float;
     args_lower_threshold := Some 0.125%float;
     args_ext := ".txt" |}.

(** [--two_thresholds --upper_threshold 0.125 --lower_threshold 0.5]:
    the upper bound below the lower one. *)
Definition two_inverted_args : args :=
  {| args_ychrom := "chrY"; args_xchrom := "chrX"; args_threshold := None;
     args_min_y := 0; args_min_x := 1; args_two_thresholds := true;
     args_upper_threshold := Some 0.125%float;
     args_lower_threshold := Some 0.5%float;
     args_ext := ".txt" |}.

(** [A.txt]: 50 reads on Y, 5 on X. *)
Definition file_A : entry :=
  {| file_name := "A.txt";
     file_lines := [line_of ["chrY"; "1000"; "50"; "0"];
                    line_of ["chrX"; "2000"; "5"; "0"]] |}.

(** [B.txt]: no read on X, below the default [--min_x 1]. *)
Definition file_B : entry :=
  {| file_name := "B.txt";
     file_lines := [line_of ["chrY"; "1000"; "50"; "0"];
                    line_of ["chrX"; "4000"; "0"; "0"]] |}.

(** [C.txt]: neither name occurs in it. *)
Definition file_C : entry :=
  {| file_name := "C.txt";
     file_lines := [line_of ["chr1"; "1000"; "50"; "0"]] |}.

(** [D.txt]: 1 read on Y, 4 on X: ratio 0.25. *)
Definition file_D : entry :=
  {| file_name := "D.txt";
     file_lines := [line_of ["chrX"; "2000"; "4"; "0"];
                    line_of ["chrY"; "1000"; "1"; "0"]] |}.

(** The locals once the two lines of [A.txt] have been scanned. *)
Definition file_A_locals : locals :=
  {| nreads_ychrom := Some 50; nreads_xchrom := Some 5;
     seqlen_ychrom := Bound 1000; seqlen_xchrom := Bound 2000;
     sex := Unbound; ratio := Unbound; threshold := Unbound |}.

(** The locals once [C.txt] has been processed: the branch of line 157
    has set [sex], [ratio] and [threshold]. *)
Definition file_C_locals : locals :=
  {| nreads_ychrom := None; nreads_xchrom := None;
     seqlen_ychrom := Unbound; seqlen_xchrom := Unbound;
     sex := Bound undetermined; ratio := Bound None; threshold := Bound None |}.

(** The locals once [A.txt] has been processed with the default
    arguments. *)
Definition after_A_locals : locals :=
  {| nreads_ychrom := Some 50; nreads_xchrom := Some 5;
     seqlen_ychrom := Bound 1000; seqlen_xchrom := Bound 2000;
     sex := Bound male; ratio := Bound (Some 10%float);
     threshold := Bound (Some 0.125%float) |}.

(** [E.txt]: 1 read on Y, 4 on X, and an X chromosome twice as long as in
    [A.txt]. *)
Definition file_E : entry :=
  {| file_name := "E.txt";
     file_lines := [line_of ["chrY"; "1000"; "1"; "0"];
                    line_of ["chrX"; "4000"; "4"; "0"]] |}.

(** The locals once the lines of [D.txt] have been scanned after [C.txt]
    was processed. *)
Definition file_C_D_locals : locals :=
  {| nreads_ychrom := Some 1; nreads_xchrom := Some 4;
     seqlen_ychrom := Bound 1000; seqlen_xchrom := Bound 2000;
     sex := Bound undetermined; ratio := Bound None; threshold := Bound None |}.

(** Two lines hold the name of the Y chromosome as a substring. *)
Definition lines_two_y : list string :=
  [line_of ["chrY"; "1000"; "50"; "0"];
   line_of ["chrX"; "2000"; "5"; "0"];
   line_of ["chrY_random"; "500"; "7"; "0"]].

(** A line that holds both names. *)
Definition line_both : string := line_of ["chrX_chrY_par"; "300"; "9"; "0"].

(** ** Notions the further properties are stated with *)

(** The character occurs in the string. *)
Fixpoint mentions (c : ascii) (s : string) : bool :=
  match s with
  | EmptyString => false
  | String c' s' => Ascii.eqb c' c || mentions c s'
  end.

(** What the local [threshold] can hold when [-t t] is given. *)
Definition threshold_fixed (t : float) (x : local (option float)) : Prop :=
  x = Unbound \/ x = Bound None \/ x = Bound (Some t).

(** Line 140: the sample name of a directory entry. *)
Definition sample_name (e : entry) : string :=
  fst (Py.splitext (file_name e)).

(** [bad.txt]: the count of the Y line is not a number. *)
Definition file_bad : entry :=
  {| file_name := "bad.txt";
     file_lines := [line_of ["chrY"; "1000"; "n/a"; "0"];
                    line_of ["chrX"; "2000"; "5"; "0"]] |}.

(** [-y chr -x chrX]: the Y name occurs inside the X name. *)
Definition chr_args : args :=
  {| args_ychrom := "chr"; args_xchrom := "chrX"; args_threshold := None;
     args_min_y := 0; args_min_x := 1; args_two_thresholds := false;
     args_upper_threshold := None; args_lower_threshold := None;
     args_ext := ".txt" |}.

(** [--min_x 0]. *)
Definition min_x_0_args : args :=
  {| args_ychrom := "chrY"; args_xchrom := "chrX"; args_threshold := None;
     args_min_y := 0; args_min_x := 0; args_two_thresholds := false;
     args_upper_threshold := None; args_lower_threshold := None;
     args_ext := ".txt" |}.

(** [len0.txt]: the X line gives the length 0. *)
Definition file_len0 : entry :=
  {| file_name := "len0.txt";
     file_lines := [line_of ["chrY"; "1000"; "50"; "0"];
                    line_of ["chrX"; "0"; "5"; "0"]] |}.

(** [-t 0.5]. *)
Definition fixed_args : args :=
  {| args_ychrom := "chrY"; args_xchrom := "chrX";
     args_threshold := Some 0.5%float;
     args_min_y := 0; args_min_x := 1; args_two_thresholds := false;
     args_upper_threshold := None; args_lower_threshold := None;
     args_ext := ".txt" |}.

(** The rows of [C.txt], [A.txt], [E.txt] under [-t 0.5]. *)
Definition fixed_rows : list row :=
  [ {| row_id := "C"; row_sex := undetermined;
       row_nreads_ychrom := None; row_nreads_xchrom := None;
       row_ratio := None; row_threshold := None |};
    {| row_id := "A"; row_sex := male;
       row_nreads_ychrom := Some 50; row_nreads_xchrom := Some 5;
       row_ratio := Some 10%float; row_threshold := Some 0.5%float |};
    {| row_id := "E"; row_sex := female;
       row_nreads_ychrom := Some 1; row_nreads_xchrom := Some 4;
       row_ratio := Some 0.25%float; row_threshold := Some 0.5%float |} ].

(** A hidden file of the extension, and a file of another extension. *)
Definition hidden_file : entry :=
  {| file_name := ".A.txt"; file_lines := file_lines file_A |}.

Definition file_other_ext : entry :=
  {| file_name := "A.tsv"; file_lines := file_lines file_A |}.

(** * Properties *)

(** ** Facts on binary64 comparison and multiplication *)

Module FloatFacts.

Lemma compare_cont_Eq (p q : positive) :
  Pos.compare_cont Eq p q = (p ?= q)%positive.
Proof. reflexivity. Qed.

Lemma SFcompare_antisym (x y : spec_float) :
  SFcompare y x = option_map CompOpp (SFcompare x y).
Proof.
  destruct x as [sx | sx | | sx mx ex], y as [sy | sy | | sy my ey];
    simpl; try reflexivity;
    try (destruct sx; reflexivity);
    try (destruct sy; reflexivity);
    try (destruct sx, sy; reflexivity).
  rewrite !compare_cont_Eq, (Z.compare_antisym ex ey), (Pos.compare_antisym mx my).
  destruct sx, sy; try reflexivity;
    destruct (ex ?= ey)%Z; simpl; try reflexivity;
    destruct (mx ?= my)%positive; reflexivity.
Qed.

Lemma SFcompare_Eq_finite sx mx ex sy my ey :
  SFcompare (S754_finite sx mx ex) (S754_finite sy my ey) = Some Eq ->
  sx = sy /\ mx = my /\ ex = ey.
Proof.
  simpl. rewrite compare_cont_Eq.
  destruct sx, sy; try discriminate;
    destruct (ex ?= ey)%Z eqn:E; try discriminate;
    apply Z.compare_eq in E;
    destruct (mx ?= my)%positive eqn:M; try discriminate;
    apply Pos.compare_eq in M; auto.
Qed.

Lemma SFcompare_Eq_trans (x y z : spec_float) :
  SFcompare x y = Some Eq -> SFcompare y z = Some Eq ->
  SFcompare x z = Some Eq.
Proof.
  destruct x as [sx | sx | | sx mx ex], y as [sy | sy | | sy my ey];
    try (simpl; discriminate);
    try (simpl; destruct sx; discriminate);
    try (simpl; destruct sy; discriminate).
  - intros _ H. destruct z; simpl in *; auto.
  - simpl. destruct sx, sy; try discriminate; intros _ H; exact H.
  - intros H. apply SFcompare_Eq_finite in H. destruct H as (-> & -> & ->).
    auto.
Qed.

Lemma SFmul_comm (x y : spec_float) : SF64mul x y = SF64mul y x.
Proof.
  unfold SF64mul.
  destruct x as [sx | sx | | sx mx ex], y as [sy | sy | | sy my ey];
    simpl; try reflexivity; try (rewrite xorb_comm; reflexivity).
  rewrite xorb_comm, Pos.mul_comm, Z.add_comm. reflexivity.
Qed.

(** [a <= b] excludes [b < a]. *)
Lemma leb_not_gt (a b : float) :
  PrimFloat.leb a b = true -> PrimFloat.ltb b a = false.
Proof.
  rewrite leb_spec, ltb_spec. unfold SFleb, SFltb.
  rewrite (SFcompare_antisym (Prim2SF a) (Prim2SF b)).
  destruct (SFcompare (Prim2SF a) (Prim2SF b)) as [[]|]; simpl;
    intros; congruence.
Qed.

Lemma eqb_sym (a b : float) : PrimFloat.eqb a b = PrimFloat.eqb b a.
Proof.
  rewrite !eqb_spec. unfold SFeqb.
  rewrite (SFcompare_antisym (Prim2SF a) (Prim2SF b)).
  destruct (SFcompare (Prim2SF a) (Prim2SF b)) as [[]|]; reflexivity.
Qed.

Lemma eqb_trans (a b c : float) :
  PrimFloat.eqb a b = true -> PrimFloat.eqb b c = true ->
  PrimFloat.eqb a c = true.
Proof.
  rewrite !eqb_spec. unfold SFeqb. intros H1 H2.
  destruct (SFcompare (Prim2SF a) (Prim2SF b)) as [[]|] eqn:E1;
    try discriminate.
  destruct (SFcompare (Prim2SF b) (Prim2SF c)) as [[]|] eqn:E2;
    try discriminate.
  rewrite (SFcompare_Eq_trans _ _ _ E1 E2). reflexivity.
Qed.

Lemma mul_comm (a b : float) : PrimFloat.mul a b = PrimFloat.mul b a.
Proof.
  apply Prim2SF_inj. rewrite !mul_spec. apply SFmul_comm.
Qed.

Lemma lex_Lt_trans (e1 e2 e3 : Z) (m1 m2 m3 : positive) (c : comparison) :
  match (e1 ?= e2)%Z with
  | Lt => Lt | Gt => Gt | Eq => (m1 ?= m2)%positive
  end = Lt ->
  match (e2 ?= e3)%Z with
  | Lt => Lt | Gt => Gt | Eq => (m2 ?= m3)%positive
  end = c ->
  c <> Gt ->
  match (e1 ?= e3)%Z with
  | Lt => Lt | Gt => Gt | Eq => (m1 ?= m3)%positive
  end = Lt.
Proof.
  destruct (Z.compare_spec e1 e2), (Z.compare_spec e2 e3),
    (Z.compare_spec e1 e3); subst; try lia; try discriminate;
    try reflexivity; try congruence;
    destruct (Pos.compare_spec m1 m2), (Pos.compare_spec m2 m3),
      (Pos.compare_spec m1 m3); subst; try lia; try discriminate;
      try reflexivity; congruence.
Qed.

Lemma lex_Gt_trans (e1 e2 e3 : Z) (m1 m2 m3 : positive) (c : comparison) :
  match (e1 ?= e2)%Z with
  | Lt => Gt | Gt => Lt | Eq => CompOpp (m1 ?= m2)%positive
  end = Lt ->
  match (e2 ?= e3)%Z with
  | Lt => Gt | Gt => Lt | Eq => CompOpp (m2 ?= m3)%positive
  end = c ->
  c <> Gt ->
  match (e1 ?= e3)%Z with
  | Lt => Gt | Gt => Lt | Eq => CompOpp (m1 ?= m3)%positive
  end = Lt.
Proof.
  destruct (Z.compare_spec e1 e2), (Z.compare_spec e2 e3),
    (Z.compare_spec e1 e3); subst; try lia; try discriminate;
    try reflexivity; try congruence;
    destruct (Pos.compare_spec m1 m2), (Pos.compare_spec m2 m3),
      (Pos.compare_spec m1 m3); subst; simpl; try lia; try discriminate;
      try reflexivity; congruence.
Qed.

Lemma SFcompare_Lt_trans (x y z : spec_float) (c : comparison) :
  SFcompare x y = Some Lt -> SFcompare y z = Some c -> c <> Gt ->
  SFcompare x z = Some Lt.
Proof.
  destruct x as [sx | sx | | sx mx ex], y as [sy | sy | | sy my ey],
    z as [sz | sz | | sz mz ez];
    try (simpl; discriminate);
    try (simpl; destruct sx; discriminate);
    try (simpl; destruct sy; discriminate);
    try (simpl; destruct sz; discriminate);
    try (simpl; destruct sx, sy; discriminate);
    try (destruct sx, sy, sz; simpl; intros; congruence).
  simpl. rewrite !compare_cont_Eq.
  destruct sx, sy, sz; try (intros; congruence); intros H1 H2 Hc;
    injection H1 as H1; injection H2 as H2; f_equal.
  - eapply lex_Gt_trans; eassumption.
  - eapply lex_Lt_trans; eassumption.
Qed.

(** [a < b] and [b <= c] exclude [c < a]. *)
Lemma lt_le_not_gt (a b c : float) :
  PrimFloat.ltb a b = true -> PrimFloat.leb b c = true ->
  PrimFloat.ltb c a = false.
Proof.
  rewrite leb_spec, !ltb_spec. unfold SFleb, SFltb. intros Hab Hbc.
  destruct (SFcompare (Prim2SF a) (Prim2SF b)) as [[] |] eqn:E1;
    try discriminate.
  destruct (SFcompare (Prim2SF b) (Prim2SF c)) as [cmp |] eqn:E2;
    [| discriminate].
  assert (cmp <> Gt) as Hc by (destruct cmp; congruence).
  rewrite (SFcompare_antisym (Prim2SF a) (Prim2SF c)),
    (SFcompare_Lt_trans _ _ _ _ E1 E2 Hc).
  reflexivity.
Qed.

End FloatFacts.

(** ** Tactics *)

(** Case analysis on the condition of an [if] of the goal. *)
Ltac case_if :=
  match goal with
  | |- context [if ?b then _ else _] => destruct b; simpl
  end.

Ltac case_ifs := repeat case_if.

(** ** The result monad *)

Lemma bind_Ok_inv {A B : Type} (r : result A) (k : A -> result B) (b : B) :
  bind r k = Ok b -> exists x, r = Ok x /\ k x = Ok b.
Proof.
  destruct r as [x | e]; simpl; intros H; [eauto | discriminate].
Qed.

Lemma bind_Raise_inv {A B : Type} (r : result A) (k : A -> result B) (e : exn) :
  bind r k = Raise e -> r = Raise e \/ exists x, r = Ok x /\ k x = Raise e.
Proof.
  destruct r as [x | e']; simpl; intros H; [eauto | left; congruence].
Qed.

(** ** The scan of a file *)

Section Scan.

Variable a : args.

Lemma scan_line_y (fr : locals) (line : string) :
  attributed_y a line = true ->
  scan_line a fr line =
    ('(n, l) <- stats_of line ;;
     Ok (set_seqlen_ychrom l (set_nreads_ychrom (Some n) fr))).
Proof.
  unfold attributed_y, scan_line, stats_of. intros ->.
  destruct (int_field line 2); simpl; [| reflexivity].
  destruct (int_field line 1); reflexivity.
Qed.

Lemma scan_line_x (fr : locals) (line : string) :
  attributed_x a line = true ->
  scan_line a fr line =
    ('(n, l) <- stats_of line ;;
     Ok (set_seqlen_xchrom l (set_nreads_xchrom (Some n) fr))).
Proof.
  unfold attributed_x, scan_line, stats_of. intros H.
  apply andb_true_iff in H. destruct H as [Hy Hx].
  apply negb_true_iff in Hy. rewrite Hy, Hx.
  destruct (int_field line 2); simpl; [| reflexivity].
  destruct (int_field line 1); reflexivity.
Qed.

Lemma scan_line_other (fr : locals) (line : string) :
  attributed_y a line = false -> attributed_x a line = false ->
  scan_line a fr line = Ok fr.
Proof.
  unfold attributed_y, attributed_x, scan_line. intros -> H.
  simpl in H. rewrite H. reflexivity.
Qed.

Lemma attributed_exclusive (line : string) :
  attributed_y a line = true -> attributed_x a line = false.
Proof.
  unfold attributed_y, attributed_x. intros ->. reflexivity.
Qed.

Lemma scan_lines_app (xs ys : list string) :
  forall fr,
    scan_lines a fr (xs ++ ys) =
      (fr' <- scan_lines a fr xs ;; scan_lines a fr' ys).
Proof.
  induction xs as [| x xs IH]; intros fr; simpl; [reflexivity |].
  destruct (scan_line a fr x); simpl; [apply IH | reflexivity].
Qed.

Lemma last_match_snoc (p : string -> bool) (xs : list string) (x : string) :
  last_match p (xs ++ [x]) = if p x then Some x else last_match p xs.
Proof.
  unfold last_match. rewrite rev_app_distr. reflexivity.
Qed.

(** The scan, when it returns: Y and X hold the statistics of the last line
    attributed to each, the other locals are untouched. *)
Lemma scan_lines_Ok (lines : list string) :
  forall fr fr',
    scan_lines a fr lines = Ok fr' ->
    forallb (well_formed a) lines = true
    /\ retained_y fr' =
         after_scan (stats_at last_match (attributed_y a) lines) (retained_y fr)
    /\ retained_x fr' =
         after_scan (stats_at last_match (attributed_x a) lines) (retained_x fr)
    /\ sex fr' = sex fr /\ ratio fr' = ratio fr /\ threshold fr' = threshold fr.
Proof.
  induction lines as [| x xs IH] using rev_ind; intros fr fr' H.
  - simpl in H. injection H as <-. repeat split; reflexivity.
  - rewrite scan_lines_app in H. apply bind_Ok_inv in H.
    destruct H as (fr1 & H1 & H2). simpl in H2.
    apply bind_Ok_inv in H2. destruct H2 as (fr2 & H2 & H3).
    injection H3 as <-.
    destruct (IH _ _ H1) as (Hwf & Hy & Hx & Hs & Hr & Ht).
    rewrite forallb_app. simpl. rewrite Hwf. simpl.
    unfold stats_at in *. rewrite !last_match_snoc. unfold well_formed.
    destruct (attributed_y a x) eqn:Ey.
    + rewrite (attributed_exclusive _ Ey). simpl.
      rewrite (scan_line_y _ _ Ey) in H2.
      apply bind_Ok_inv in H2. destruct H2 as ([n l] & -> & H2).
      injection H2 as <-. simpl.
      repeat split; assumption.
    + destruct (attributed_x a x) eqn:Ex; simpl.
      * rewrite (scan_line_x _ _ Ex) in H2.
        apply bind_Ok_inv in H2. destruct H2 as ([n l] & -> & H2).
        injection H2 as <-. simpl.
        repeat split; assumption.
      * rewrite (scan_line_other _ _ Ey Ex) in H2. injection H2 as <-.
        repeat split; assumption.
Qed.

(** The scan returns when every line it reads numbers from has them. *)
Lemma scan_lines_total (lines : list string) :
  forall fr,
    forallb (well_formed a) lines = true ->
    exists fr', scan_lines a fr lines = Ok fr'.
Proof.
  induction lines as [| x xs IH]; intros fr H; simpl in *.
  - eauto.
  - apply andb_true_iff in H. destruct H as [Hx Hxs].
    unfold well_formed in Hx.
    destruct (attributed_y a x) eqn:Ey.
    + rewrite (scan_line_y _ _ Ey). simpl in Hx.
      destruct (stats_of x) as [[n l] | e]; [| discriminate]. simpl.
      apply IH. assumption.
    + destruct (attributed_x a x) eqn:Ex.
      * rewrite (scan_line_x _ _ Ex). simpl in Hx.
        destruct (stats_of x) as [[n l] | e]; [| discriminate]. simpl.
        apply IH. assumption.
      * rewrite (scan_line_other _ _ Ey Ex). simpl. apply IH. assumption.
Qed.

Lemma int_Raise (s : string) (e : exn) :
  Py.int s = Raise e -> e = ValueError.
Proof.
  unfold Py.int.
  match goal with
  | |- context [let '(_, _) := ?p in _] => destruct p as [negative body]
  end.
  destruct (Py.digits body 0 false); [case_if |]; intros H; congruence.
Qed.

Lemma int_field_Raise (line : string) (i : nat) (e : exn) :
  int_field line i = Raise e -> e = IndexError \/ e = ValueError.
Proof.
  unfold int_field, Py.index.
  destruct (nth_error (Py.split_tab line) i) as [s |]; simpl.
  - intros H. right. eapply int_Raise. exact H.
  - intros H. left. congruence.
Qed.

Lemma stats_of_Raise (line : string) (e : exn) :
  stats_of line = Raise e -> e = IndexError \/ e = ValueError.
Proof.
  unfold stats_of. intros H.
  apply bind_Raise_inv in H. destruct H as [H | (n & _ & H)].
  - eapply int_field_Raise; eassumption.
  - apply bind_Raise_inv in H. destruct H as [H | (l & _ & H)].
    + eapply int_field_Raise; eassumption.
    + discriminate.
Qed.

Lemma scan_line_Raise (fr : locals) (line : string) (e : exn) :
  scan_line a fr line = Raise e -> e = IndexError \/ e = ValueError.
Proof.
  destruct (attributed_y a line) eqn:Ey.
  - rewrite (scan_line_y _ _ Ey). intros H.
    apply bind_Raise_inv in H. destruct H as [H | ([n l] & _ & H)].
    + eapply stats_of_Raise; eassumption.
    + discriminate.
  - destruct (attributed_x a line) eqn:Ex.
    + rewrite (scan_line_x _ _ Ex). intros H.
      apply bind_Raise_inv in H. destruct H as [H | ([n l] & _ & H)].
      * eapply stats_of_Raise; eassumption.
      * discriminate.
    + rewrite (scan_line_other _ _ Ey Ex). discriminate.
Qed.

(** The scan raises nothing but what reading a number raises. *)
Lemma scan_lines_Raise (lines : list string) :
  forall fr e,
    scan_lines a fr lines = Raise e -> e = IndexError \/ e = ValueError.
Proof.
  induction lines as [| x xs IH]; intros fr e H; simpl in H.
  - discriminate.
  - apply bind_Raise_inv in H. destruct H as [H | (fr1 & _ & H)].
    + eapply scan_line_Raise; eassumption.
    + eapply IH; eassumption.
Qed.

End Scan.

(** C3, as the specification states it, fails: in a file where two lines
    hold the name of the Y chromosome, the first of them has 50 reads on a
    sequence of length 1000, and the scan retains the 7 reads and the length
    500 of the second. *)
Lemma first_match_not_retained :
  stats_at first_match (attributed_y default_args) lines_two_y
    = Some (50, 1000)
  /\ exists fr',
       scan_file default_args entry_locals lines_two_y = Ok fr'
       /\ retained_y fr' = (Some 7, Bound 500)
       /\ retained_y fr' <> (Some 50, Bound 1000).
Proof.
  split; [vm_compute; reflexivity |].
  eexists. split; [vm_compute; reflexivity |].
  split; [reflexivity | discriminate].
Qed.

(** C3, amended: for every input file whose attributed lines carry their two
    numbers, the scan returns, and the read count and sequence length
    retained for Y are those of the last line that holds the Y name as a
    substring, those retained for X are those of the last line that holds
    the X name and not the Y name; with no such line the count is [None].
    A later matching line replaces what an earlier one set. *)
Theorem last_match_retained (a : args) (fr : locals) (lines : list string) :
  forallb (well_formed a) lines = true ->
  exists fr',
    scan_file a fr lines = Ok fr'
    /\ retained_y fr' =
         after_scan (stats_at last_match (attributed_y a) lines)
           (None, seqlen_ychrom fr)
    /\ retained_x fr' =
         after_scan (stats_at last_match (attributed_x a) lines)
           (None, seqlen_xchrom fr).
Proof.
  intros Hwf. unfold scan_file.
  destruct (scan_lines_total a lines
              (set_nreads_xchrom None (set_nreads_ychrom None fr)) Hwf)
    as (fr' & Hscan).
  exists fr'. split; [exact Hscan |].
  destruct (scan_lines_Ok _ _ _ _ Hscan) as (_ & Hy & Hx & _).
  split; assumption.
Qed.

Lemma last_match_retained_witness :
  exists fr',
    scan_file default_args entry_locals lines_two_y = Ok fr'
    /\ retained_y fr' = (Some 7, Bound 500)
    /\ retained_x fr' = (Some 5, Bound 2000).
Proof.
  apply (last_match_retained default_args entry_locals lines_two_y).
  vm_compute. reflexivity.
Defined.

(** C10: a line that holds both the Y name and the X name is attributed to Y
    only. When its two numbers can be read they become the read count and
    the length of Y, and the count and the length of X stay what they were;
    when they cannot, the scan raises and X is not set either. *)
Theorem both_names_line_sets_y_only (a : args) (fr : locals) (line : string) :
  Py.contains (args_ychrom a) line = true ->
  Py.contains (args_xchrom a) line = true ->
  match stats_of line with
  | Ok (n, l) =>
      exists fr',
        scan_line a fr line = Ok fr'
        /\ retained_y fr' = (Some n, Bound l)
        /\ retained_x fr' = retained_x fr
  | Raise e => scan_line a fr line = Raise e
  end.
Proof.
  intros Hy _. rewrite (scan_line_y a fr line Hy).
  destruct (stats_of line) as [[n l] | e]; simpl.
  - eexists. split; [reflexivity |]. split; reflexivity.
  - reflexivity.
Qed.

Lemma both_names_line_sets_y_only_witness :
  exists fr',
    scan_line default_args file_A_locals line_both = Ok fr'
    /\ retained_y fr' = (Some 9, Bound 300)
    /\ retained_x fr' = (Some 5, Bound 2000).
Proof.
  apply (both_names_line_sets_y_only default_args file_A_locals line_both);
    vm_compute; reflexivity.
Defined.

(** ** The classification of a sample *)

Lemma sample_ratio_inv (a : args) (fr : locals) (e : entry) (r : float) :
  sample_ratio a fr e = Some r ->
  exists fr1 ny nx,
    scan_file a fr (file_lines e) = Ok fr1
    /\ nreads_ychrom fr1 = Some ny /\ nreads_xchrom fr1 = Some nx
    /\ floors_met a ny nx = true
    /\ compute_ratio ny nx = Ok r.
Proof.
  unfold sample_ratio.
  destruct (scan_file a fr (file_lines e)) as [fr1 | ex]; [| discriminate].
  destruct (nreads_ychrom fr1) as [ny |] eqn:Ey; [| discriminate].
  destruct (nreads_xchrom fr1) as [nx |] eqn:Ex; [| discriminate].
  destruct (floors_met a ny nx) eqn:Ef; [| discriminate].
  destruct (compute_ratio ny nx) as [r' | ex] eqn:Er; [| discriminate].
  intros H. injection H as <-. exists fr1, ny, nx. auto.
Qed.

Lemma sample_ratio_scan (a : args) (fr : locals) (e : entry) (r : float)
  (fr1 : locals) :
  sample_ratio a fr e = Some r ->
  scan_file a fr (file_lines e) = Ok fr1 ->
  exists ny nx,
    nreads_ychrom fr1 = Some ny /\ nreads_xchrom fr1 = Some nx
    /\ floors_met a ny nx = true
    /\ compute_ratio ny nx = Ok r.
Proof.
  intros H Hs. apply sample_ratio_inv in H.
  destruct H as (fr1' & ny & nx & Hs' & H).
  rewrite Hs in Hs'. injection Hs' as <-. eauto.
Qed.

(** The branch of line 171, once the ratio is there. *)
Lemma classify_with_ratio (a : args) (fr1 : locals) (ny nx : Z) (r : float) :
  nreads_ychrom fr1 = Some ny -> nreads_xchrom fr1 = Some nx ->
  floors_met a ny nx = true -> compute_ratio ny nx = Ok r ->
  classify a fr1 =
    let fr := set_ratio (Some r) fr1 in
    if args_two_thresholds a then
      match args_lower_threshold a, args_upper_threshold a with
      | Some lower, Some upper =>
          Ok (set_sex (two_threshold_sex upper lower r) fr)
      | _, _ => Raise ConfigurationError
      end
    else
      t <- single_threshold a fr ;;
      Ok (set_sex (single_threshold_sex t r) (set_threshold (Some t) fr)).
Proof.
  intros Hy Hx Hf Hr. unfold classify, floors_met in *.
  rewrite Hy, Hx. apply negb_true_iff in Hf. rewrite Hf, Hr. reflexivity.
Qed.

Lemma single_threshold_set_ratio (a : args) (fr : locals) (r : option float) :
  single_threshold a (set_ratio r fr) = single_threshold a fr.
Proof. reflexivity. Qed.

(** A sample of the single-threshold mode whose ratio and threshold are
    computed: the locals it leaves and the row it adds. *)
Lemma process_sample_single (a : args) (fr : locals) (e : entry)
  (r t : float) (fr1 : locals) :
  args_two_thresholds a = false ->
  sample_ratio a fr e = Some r ->
  scan_file a fr (file_lines e) = Ok fr1 ->
  single_threshold a fr1 = Ok t ->
  process_sample a fr e =
    Ok (set_sex (single_threshold_sex t r)
          (set_threshold (Some t) (set_ratio (Some r) fr1)),
        {| row_id := fst (Py.splitext (file_name e));
           row_sex := single_threshold_sex t r;
           row_nreads_ychrom := nreads_ychrom fr1;
           row_nreads_xchrom := nreads_xchrom fr1;
           row_ratio := Some r;
           row_threshold := Some t |}).
Proof.
  intros Hm Hr Hs Ht.
  destruct (sample_ratio_scan _ _ _ _ _ Hr Hs) as (ny & nx & Hy & Hx & Hf & Hc).
  unfold process_sample. rewrite Hs. simpl.
  rewrite (classify_with_ratio _ _ _ _ _ Hy Hx Hf Hc). simpl.
  rewrite Hm, single_threshold_set_ratio, Ht. reflexivity.
Qed.

(** C7, on the code: in single-threshold mode the row of [B.txt], written
    after that of [A.txt], has a ratio, 10.0, and a threshold, 0.125, the
    ratio is greater than the threshold, and its sex is undetermined, not
    male: line 168 assigns [sex] and leaves the ratio of [A.txt] in the
    row. *)
Theorem undetermined_row_above_threshold :
  args_two_thresholds default_args = false
  /\ exists fr rA rB,
       loop default_args entry_locals [] [file_A; file_B] = Ok (fr, [rA; rB])
       /\ row_ratio rB = Some 10%float
       /\ row_threshold rB = Some 0.125%float
       /\ Py.gt 10 0.125 = true
       /\ row_sex rB = undetermined
       /\ row_sex rB <> male.
Proof.
  split; [reflexivity |].
  do 3 eexists. split; [vm_compute; reflexivity |].
  repeat split; try (vm_compute; reflexivity). discriminate.
Qed.

(** X22: in single-threshold mode, a sample for which line 171 computes the
    ratio and lines 193-197 compute the threshold gets a row with that ratio
    and that threshold, and its sex is male exactly when the ratio is
    greater than the threshold, female otherwise (also when the two are
    equal); it is never undetermined. *)
Theorem single_threshold_decision (a : args) (fr : locals) (e : entry)
  (r t : float) (fr1 : locals) :
  args_two_thresholds a = false ->
  sample_ratio a fr e = Some r ->
  scan_file a fr (file_lines e) = Ok fr1 ->
  single_threshold a fr1 = Ok t ->
  exists fr' rw,
    process_sample a fr e = Ok (fr', rw)
    /\ row_ratio rw = Some r
    /\ row_threshold rw = Some t
    /\ (row_sex rw = male <-> Py.gt r t = true)
    /\ (row_sex rw = female <-> Py.gt r t = false)
    /\ row_sex rw <> undetermined.
Proof.
  intros Hm Hr Hs Ht.
  rewrite (process_sample_single _ _ _ _ _ _ Hm Hr Hs Ht).
  do 2 eexists. split; [reflexivity |]. simpl.
  unfold single_threshold_sex, Py.lt, Py.gt.
  destruct (PrimFloat.ltb t r); repeat split; intros; congruence.
Qed.

Lemma single_threshold_decision_witness :
  exists fr' rw,
    process_sample default_args entry_locals file_A = Ok (fr', rw)
    /\ row_ratio rw = Some 10%float
    /\ row_threshold rw = Some 0.125%float
    /\ (row_sex rw = male <-> Py.gt 10 0.125 = true)
    /\ (row_sex rw = female <-> Py.gt 10 0.125 = false)
    /\ row_sex rw <> undetermined.
Proof.
  apply (single_threshold_decision default_args entry_locals file_A
           10%float 0.125%float file_A_locals);
    vm_compute; reflexivity.
Defined.

(** C8, on the code: in two-threshold mode with the bounds 0.125 and 0.25,
    the row of [B.txt], written after those of [C.txt] and [A.txt], has the
    ratio 10.0, greater than the upper bound, and its sex is undetermined,
    not male: line 168 assigns [sex] and leaves the ratio of [A.txt] in the
    row. *)
Theorem undetermined_row_above_upper :
  args_two_thresholds two_args = true
  /\ args_upper_threshold two_args = Some 0.25%float
  /\ args_lower_threshold two_args = Some 0.125%float
  /\ exists fr rC rA rB,
       loop two_args entry_locals [] [file_C; file_A; file_B]
         = Ok (fr, [rC; rA; rB])
       /\ row_sex rA = male
       /\ row_ratio rB = Some 10%float
       /\ Py.gt 10 0.25 = true
       /\ row_sex rB = undetermined
       /\ row_sex rB <> male.
Proof.
  repeat (split; [reflexivity |]).
  do 4 eexists. split; [vm_compute; reflexivity |].
  repeat split; try (vm_compute; reflexivity). discriminate.
Qed.

(** With the upper bound 0.125 below the lower bound 0.5, the sample
    [D.txt] of ratio 0.25, processed after [C.txt], is male: line 183 is
    tested before line 185. *)
Example inverted_bounds_male :
  args_upper_threshold two_inverted_args = Some 0.125%float
  /\ args_lower_threshold two_inverted_args = Some 0.5%float
  /\ exists fr rC rD,
       loop two_inverted_args entry_locals [] [file_C; file_D]
         = Ok (fr, [rC; rD])
       /\ row_ratio rD = Some 0.25%float
       /\ Py.lt 0.25 0.5 = true
       /\ row_sex rD = male.
Proof.
  split; [reflexivity |]. split; [reflexivity |].
  do 3 eexists. split; [vm_compute; reflexivity |].
  repeat split; reflexivity.
Qed.

(** X23: in two-threshold mode with both bounds configured, a sample for
    which line 171 computes the ratio is classified by lines 183-188: male
    when the ratio is greater than the upper bound; female when it is less
    than the lower bound and the lower bound is at most the upper one (or,
    whatever the bounds, the ratio is not greater than the upper one);
    undetermined when it lies between the bounds, ties included. When the
    local [threshold] has been assigned by an earlier sample, the sample's
    row carries that sex and that ratio. *)
Theorem two_threshold_decision (a : args) (fr : locals) (e : entry)
  (r upper lower : float) (fr1 : locals) :
  args_two_thresholds a = true ->
  args_upper_threshold a = Some upper ->
  args_lower_threshold a = Some lower ->
  sample_ratio a fr e = Some r ->
  scan_file a fr (file_lines e) = Ok fr1 ->
  exists fr' s,
    classify a fr1 = Ok fr'
    /\ sex fr' = Bound s
    /\ ratio fr' = Bound (Some r)
    /\ (Py.gt r upper = true -> s = male)
    /\ (Py.lt r lower = true -> Py.le lower upper = true -> s = female)
    /\ (Py.lt r lower = true -> Py.gt r upper = false -> s = female)
    /\ (Py.le lower r = true -> Py.le r upper = true -> s = undetermined)
    /\ (forall th, threshold fr = Bound th ->
          exists rw,
            process_sample a fr e = Ok (fr', rw)
            /\ row_sex rw = s /\ row_ratio rw = Some r).
Proof.
  intros Hm Hu Hl Hr Hs.
  destruct (sample_ratio_scan _ _ _ _ _ Hr Hs) as (ny & nx & Hy & Hx & Hf & Hc).
  pose proof (classify_with_ratio _ _ _ _ _ Hy Hx Hf Hc) as Hcl.
  simpl in Hcl. rewrite Hm, Hl, Hu in Hcl.
  do 2 eexists. split; [exact Hcl |].
  split; [reflexivity |]. split; [reflexivity |].
  unfold two_threshold_sex, Py.lt, Py.gt, Py.le.
  split; [intros ->; reflexivity |].
  split.
  { intros Hlt Hle. rewrite (FloatFacts.lt_le_not_gt _ _ _ Hlt Hle), Hlt.
    reflexivity. }
  split; [intros -> ->; reflexivity |].
  split.
  - intros Hlo Hup.
    rewrite (FloatFacts.leb_not_gt _ _ Hup), (FloatFacts.leb_not_gt _ _ Hlo).
    reflexivity.
  - intros th Hth. unfold process_sample. rewrite Hs. simpl. rewrite Hcl. simpl.
    unfold scan_file in Hs.
    destruct (scan_lines_Ok _ _ _ _ Hs) as (_ & _ & _ & _ & _ & Ht).
    simpl in Ht. unfold make_row. simpl. rewrite Ht, Hth. simpl.
    eexists. split; [reflexivity |]. split; reflexivity.
Qed.

Lemma two_threshold_decision_witness :
  exists fr' s,
    classify two_args file_C_D_locals = Ok fr'
    /\ sex fr' = Bound s
    /\ ratio fr' = Bound (Some 0.25%float)
    /\ (Py.gt 0.25 0.25 = true -> s = male)
    /\ (Py.lt 0.25 0.125 = true -> Py.le 0.125 0.25 = true -> s = female)
    /\ (Py.lt 0.25 0.125 = true -> Py.gt 0.25 0.25 = false -> s = female)
    /\ (Py.le 0.125 0.25 = true -> Py.le 0.25 0.25 = true -> s = undetermined)
    /\ (forall th, threshold file_C_locals = Bound th ->
          exists rw,
            process_sample two_args file_C_locals file_D = Ok (fr', rw)
            /\ row_sex rw = s /\ row_ratio rw = Some 0.25%float).
Proof.
  apply (two_threshold_decision two_args file_C_locals file_D
           0.25%float 0.25%float 0.125%float file_C_D_locals);
    vm_compute; reflexivity.
Defined.

(** C9, on the code: with no fixed threshold, the row of [B.txt], written
    after that of [A.txt], has a ratio and the threshold 0.125, that of
    [A.txt]; the lengths retained from [B.txt] itself are 1000 and 4000,
    which give 0.0625. *)
Theorem row_threshold_of_other_sample :
  args_two_thresholds default_args = false
  /\ args_threshold default_args = None
  /\ exists fr rA rB,
       loop default_args entry_locals [] [file_A; file_B] = Ok (fr, [rA; rB])
       /\ seqlen_ychrom fr = Bound 1000
       /\ seqlen_xchrom fr = Bound 4000
       /\ auto_threshold 1000 4000 = Ok 0.0625%float
       /\ row_ratio rB = Some 10%float
       /\ row_threshold rB = Some 0.125%float
       /\ PrimFloat.eqb 0.125 0.0625 = false.
Proof.
  split; [reflexivity |]. split; [reflexivity |].
  do 3 eexists. split; [vm_compute; reflexivity |].
  repeat split; vm_compute; reflexivity.
Qed.



(** ** Samples below a minimum count *)

(** The branch of line 168 assigns [sex] and nothing else: the row of such a
    sample reads [ratio] and [threshold] as the samples before it left
    them, and raises when none has assigned them. *)
Lemma process_sample_below_floor (a : args) (fr : locals) (e : entry)
  (fr1 : locals) (ny nx : Z) :
  scan_file a fr (file_lines e) = Ok fr1 ->
  nreads_ychrom fr1 = Some ny -> nreads_xchrom fr1 = Some nx ->
  floors_met a ny nx = false ->
  process_sample a fr e =
    (r <- read (ratio fr) ;;
     t <- read (threshold fr) ;;
     Ok (set_sex undetermined fr1,
         {| row_id := fst (Py.splitext (file_name e));
            row_sex := undetermined;
            row_nreads_ychrom := Some ny;
            row_nreads_xchrom := Some nx;
            row_ratio := r;
            row_threshold := t |})).
Proof.
  intros Hs Hy Hx Hf. unfold process_sample. rewrite Hs. simpl.
  unfold scan_file in Hs.
  destruct (scan_lines_Ok _ _ _ _ Hs) as (_ & _ & _ & _ & Hr & Ht).
  simpl in Hr, Ht.
  unfold classify, floors_met in *. rewrite Hy, Hx.
  apply negb_false_iff in Hf. rewrite Hf. simpl.
  unfold make_row. simpl. rewrite Hr, Ht, Hy, Hx.
  destruct (ratio fr); simpl; [reflexivity |].
  destruct (threshold fr); reflexivity.
Qed.

(** A sample in whose file a name is not found: lines 160-162 assign the
    three variables, the row is added whatever the locals held. *)
Lemma process_sample_name_missing (a : args) (fr : locals) (e : entry)
  (fr1 : locals) :
  scan_file a fr (file_lines e) = Ok fr1 ->
  nreads_ychrom fr1 = None \/ nreads_xchrom fr1 = None ->
  process_sample a fr e =
    Ok (set_threshold None (set_ratio None (set_sex undetermined fr1)),
        {| row_id := fst (Py.splitext (file_name e));
           row_sex := undetermined;
           row_nreads_ychrom := nreads_ychrom fr1;
           row_nreads_xchrom := nreads_xchrom fr1;
           row_ratio := None;
           row_threshold := None |}).
Proof.
  intros Hs Hnone. unfold process_sample. rewrite Hs. simpl.
  assert (classify a fr1 =
            Ok (set_threshold None (set_ratio None (set_sex undetermined fr1))))
    as ->.
  { unfold classify. destruct Hnone as [-> | ->]; [reflexivity |].
    destruct (nreads_ychrom fr1); reflexivity. }
  reflexivity.
Qed.

(** C1, on the code: [B.txt] has no read on X, below [--min_x 1], so line
    171 is not reached for it; its row, written after that of [A.txt],
    still has a ratio, the 10.0 of [A.txt]. *)
Theorem ratio_present_below_floor :
  exists fr rA rB,
    loop default_args entry_locals [] [file_A; file_B] = Ok (fr, [rA; rB])
    /\ row_nreads_ychrom rB = Some 50
    /\ row_nreads_xchrom rB = Some 0
    /\ floors_met default_args 50 0 = false
    /\ sample_ratio default_args after_A_locals file_B = None
    /\ row_sex rB = undetermined
    /\ row_ratio rA = Some 10%float
    /\ row_ratio rB = Some 10%float.
Proof.
  do 3 eexists. split; [vm_compute; reflexivity |].
  repeat split; vm_compute; reflexivity.
Qed.

(** C2, on the code: the row of [B.txt], whose ratio is not computed, has a
    threshold, the 0.125 computed for [A.txt]; the lengths in [B.txt] itself
    would give 0.0625. *)
Theorem threshold_present_below_floor :
  exists fr rA rB,
    loop default_args entry_locals [] [file_A; file_B] = Ok (fr, [rA; rB])
    /\ sample_ratio default_args after_A_locals file_B = None
    /\ row_sex rB = undetermined
    /\ row_threshold rA = Some 0.125%float
    /\ row_threshold rB = Some 0.125%float
    /\ auto_threshold 1000 4000 = Ok 0.0625%float.
Proof.
  do 3 eexists. split; [vm_compute; reflexivity |].
  repeat split; vm_compute; reflexivity.
Qed.

(** C4, on the code: with [B.txt] as the first file of the directory, its
    count below the minimum ends the run with an exception: no row is
    written for it, [A.txt] is not processed, no table is produced. *)
Theorem below_floor_first_aborts :
  floors_met default_args 50 0 = false
  /\ process_sample default_args entry_locals file_B = Raise UnboundLocalError
  /\ main default_args [file_B; file_A] = Raise UnboundLocalError
  /\ exists t, main default_args [file_A] = Ok t.
Proof.
  repeat split; try (vm_compute; reflexivity).
  eexists. vm_compute. reflexivity.
Qed.

(** ** The loop over the directory *)

Lemma loop_app (a : args) (xs ys : list entry) :
  forall fr data,
    loop a fr data (xs ++ ys) =
      ('(fr', data') <- loop a fr data xs ;; loop a fr' data' ys).
Proof.
  induction xs as [| x xs IH]; intros fr data; simpl; [reflexivity |].
  destruct (selected a x); [| apply IH].
  destruct (process_sample a fr x) as [[fr' rw] | ex]; simpl;
    [apply IH | reflexivity].
Qed.

Lemma compute_ratio_Raise (ny nx : Z) (ex : exn) :
  compute_ratio ny nx = Raise ex -> ex <> ConfigurationError.
Proof.
  unfold compute_ratio, Py.float, Py.truediv.
  case_ifs; intros H; congruence.
Qed.

Lemma single_threshold_Raise (a : args) (fr : locals) (ex : exn) :
  single_threshold a fr = Raise ex -> ex <> ConfigurationError.
Proof.
  unfold single_threshold, Py.float, Py.truediv, read.
  destruct (args_threshold a); [discriminate |].
  destruct (seqlen_ychrom fr); simpl; [congruence |].
  case_if; [congruence |].
  destruct (seqlen_xchrom fr); simpl; [congruence |].
  case_ifs; intros H; congruence.
Qed.

Lemma make_row_Raise (name : string) (fr : locals) (ex : exn) :
  make_row name fr = Raise ex -> ex = UnboundLocalError.
Proof.
  unfold make_row, read.
  destruct (sex fr), (ratio fr), (threshold fr); simpl; congruence.
Qed.

(** With a bound missing in two-threshold mode, a sample whose ratio is
    computed ends the run. *)
Lemma process_sample_unset (a : args) (fr : locals) (e : entry) (r : float) :
  args_two_thresholds a = true ->
  args_upper_threshold a = None \/ args_lower_threshold a = None ->
  sample_ratio a fr e = Some r ->
  process_sample a fr e = Raise ConfigurationError.
Proof.
  intros Hm Hb Hr.
  destruct (sample_ratio_inv _ _ _ _ Hr)
    as (fr1 & ny & nx & Hs & Hy & Hx & Hf & Hc).
  unfold process_sample. rewrite Hs. simpl.
  rewrite (classify_with_ratio _ _ _ _ _ Hy Hx Hf Hc). simpl. rewrite Hm.
  destruct Hb as [-> | ->]; [destruct (args_lower_threshold a) |];
    reflexivity.
Qed.

(** The exception of line 178 is raised for no other sample. *)
Lemma process_sample_ConfigurationError (a : args) (fr : locals) (e : entry) :
  process_sample a fr e = Raise ConfigurationError ->
  exists r, sample_ratio a fr e = Some r.
Proof.
  unfold process_sample, sample_ratio. intros H.
  apply bind_Raise_inv in H. destruct H as [H | (fr1 & Hs & H)].
  { apply scan_lines_Raise in H. destruct H; discriminate. }
  rewrite Hs.
  apply bind_Raise_inv in H. destruct H as [H | (fr2 & _ & H)].
  - unfold classify, floors_met in *.
    destruct (nreads_ychrom fr1) as [ny |]; [| discriminate].
    destruct (nreads_xchrom fr1) as [nx |]; [| discriminate].
    destruct ((ny <? args_min_y a)%Z || (nx <? args_min_x a)%Z);
      [discriminate |]. simpl.
    destruct (compute_ratio ny nx) as [r | ex] eqn:Er; [eauto |].
    simpl in H. injection H as ->.
    apply compute_ratio_Raise in Er. congruence.
  - apply bind_Raise_inv in H. destruct H as [H | (rw & _ & H)].
    + apply make_row_Raise in H. discriminate.
    + discriminate.
Qed.

(** The loop raises the exception of line 178 exactly when it reaches a
    selected file whose ratio is computed. *)
Lemma loop_ConfigurationError (a : args) (es : list entry) :
  args_two_thresholds a = true ->
  args_upper_threshold a = None \/ args_lower_threshold a = None ->
  forall fr data,
    loop a fr data es = Raise ConfigurationError <->
    exists pre e post fr1 data1 r,
      es = pre ++ e :: post
      /\ loop a fr data pre = Ok (fr1, data1)
      /\ selected a e = true
      /\ sample_ratio a fr1 e = Some r.
Proof.
  intros Hm Hb fr data. split.
  - revert fr data. induction es as [| x xs IH]; intros fr data H; simpl in H.
    + discriminate.
    + destruct (selected a x) eqn:Esel.
      * destruct (process_sample a fr x) as [[fr' rw] | ex] eqn:Ep; simpl in H.
        -- destruct (IH _ _ H) as (pre & e & post & fr1 & data1 & r & -> & Hl & He & Hr).
           exists (x :: pre), e, post, fr1, data1, r.
           repeat split; try assumption. simpl. rewrite Esel, Ep. exact Hl.
        -- injection H as ->.
           destruct (process_sample_ConfigurationError _ _ _ Ep) as (r & Hr).
           exists [], x, xs, fr, data, r. repeat split; assumption.
      * destruct (IH _ _ H) as (pre & e & post & fr1 & data1 & r & -> & Hl & He & Hr).
        exists (x :: pre), e, post, fr1, data1, r.
        repeat split; try assumption. simpl. rewrite Esel. exact Hl.
  - intros (pre & e & post & fr1 & data1 & r & -> & Hl & He & Hr).
    rewrite loop_app, Hl. simpl. rewrite He.
    rewrite (process_sample_unset _ _ _ _ Hm Hb Hr). reflexivity.
Qed.

(** In two-threshold mode no branch assigns a number to [threshold]. *)
Lemma classify_two_thresholds_threshold (a : args) (fr1 fr2 : locals) :
  args_two_thresholds a = true ->
  classify a fr1 = Ok fr2 ->
  threshold fr2 = threshold fr1 \/ threshold fr2 = Bound None.
Proof.
  intros Hm. unfold classify. rewrite Hm.
  destruct (nreads_ychrom fr1) as [ny |];
    [| intros H; injection H as <-; right; reflexivity].
  destruct (nreads_xchrom fr1) as [nx |];
    [| intros H; injection H as <-; right; reflexivity].
  case_if; [intros H; injection H as <-; left; reflexivity |].
  destruct (compute_ratio ny nx) as [r | ex]; simpl; [| discriminate].
  destruct (args_lower_threshold a); [| discriminate].
  destruct (args_upper_threshold a); [| discriminate].
  intros H. injection H as <-. left. reflexivity.
Qed.

Lemma process_sample_two_thresholds (a : args) (fr fr' : locals) (e : entry)
  (rw : row) :
  args_two_thresholds a = true ->
  threshold fr = Unbound \/ threshold fr = Bound None ->
  process_sample a fr e = Ok (fr', rw) ->
  threshold fr' = Bound None /\ row_threshold rw = None.
Proof.
  intros Hm Hth H. unfold process_sample in H.
  apply bind_Ok_inv in H. destruct H as (fr1 & Hs & H).
  apply bind_Ok_inv in H. destruct H as (fr2 & Hc & H).
  apply bind_Ok_inv in H. destruct H as (rw' & Hrow & H).
  injection H as <- <-.
  unfold scan_file in Hs.
  destruct (scan_lines_Ok _ _ _ _ Hs) as (_ & _ & _ & _ & _ & Ht).
  simpl in Ht.
  assert (threshold fr2 = Unbound \/ threshold fr2 = Bound None) as Hth2.
  { destruct (classify_two_thresholds_threshold _ _ _ Hm Hc) as [E | E];
      [rewrite E, Ht; exact Hth | right; exact E]. }
  unfold make_row, read in Hrow.
  destruct (sex fr2); [discriminate |].
  destruct (ratio fr2); [discriminate |].
  destruct Hth2 as [E | E]; rewrite E in Hrow; simpl in Hrow;
    [discriminate |].
  injection Hrow as <-. split; [exact E | reflexivity].
Qed.

(** In two-threshold mode every row the loop adds has no threshold. *)
Lemma loop_two_thresholds_threshold_absent (a : args) (es : list entry) :
  args_two_thresholds a = true ->
  forall fr data fr' data',
    threshold fr = Unbound \/ threshold fr = Bound None ->
    Forall (fun rw => row_threshold rw = None) data ->
    loop a fr data es = Ok (fr', data') ->
    Forall (fun rw => row_threshold rw = None) data'.
Proof.
  intros Hm. induction es as [| x xs IH]; intros fr data fr' data' Hth Hd H;
    simpl in H.
  - injection H as <- <-. exact Hd.
  - destruct (selected a x); [| eapply IH; eassumption].
    destruct (process_sample a fr x) as [[fr1 rw] | ex] eqn:Ep; simpl in H;
      [| discriminate].
    destruct (process_sample_two_thresholds _ _ _ _ _ Hm Hth Ep) as [Ht Hr].
    eapply IH; [right; exact Ht | | exact H].
    apply Forall_app. split; [exact Hd | constructor; [exact Hr | constructor]].
Qed.

(** In two-threshold mode line 203 reads a [threshold] that only the branch
    of a missing name assigns: a directory that starts with a sample whose
    names are found ends the run there. *)
Example two_thresholds_first_sample_raises :
  main two_args [file_A] = Raise UnboundLocalError
  /\ exists t, main two_args [file_C; file_A] = Ok t.
Proof.
  split; [vm_compute; reflexivity |].
  eexists. vm_compute. reflexivity.
Qed.

Lemma write_table_Raise (fr : locals) (data : list row) (ex : exn) :
  write_table fr data = Raise ex -> ex = UnboundLocalError.
Proof.
  unfold write_table, read.
  destruct (single_threshold_value data); [| discriminate].
  destruct (threshold fr); simpl; congruence.
Qed.

(** C5, as the specification states it, fails: in two-threshold mode with
    no bound given, a directory whose only file holds neither name is
    processed to the end; a table with one row is written. *)
Lemma unset_bounds_no_exception :
  args_two_thresholds two_unset_args = true
  /\ args_upper_threshold two_unset_args = None
  /\ args_lower_threshold two_unset_args = None
  /\ exists t,
       main two_unset_args [file_C] = Ok t
       /\ body t = [[CStr "C"; CSex undetermined; CInt None; CInt None;
                     CFloat None; CFloat None]].
Proof.
  repeat split. eexists. split; vm_compute; reflexivity.
Qed.

(** C5, amended: in two-threshold mode with the upper or the lower bound
    unset, the run ends with the ConfigurationError, no table written,
    exactly when the loop reaches a selected file whose ratio is computed
    (both names found, both counts at their minimum), the files before it
    having been processed; a run in which no file gets that far does not
    raise it. *)
Theorem unset_bounds_raise_at_first_ratio (a : args) (es : list entry) :
  args_two_thresholds a = true ->
  args_upper_threshold a = None \/ args_lower_threshold a = None ->
  main a es = Raise ConfigurationError <->
  exists pre e post fr data r,
    es = pre ++ e :: post
    /\ loop a entry_locals [] pre = Ok (fr, data)
    /\ selected a e = true
    /\ sample_ratio a fr e = Some r.
Proof.
  intros Hm Hb.
  rewrite <- (loop_ConfigurationError a es Hm Hb entry_locals []).
  unfold main.
  destruct (loop a entry_locals [] es) as [[fr data] | ex]; simpl.
  - split; [| discriminate]. intros H.
    apply write_table_Raise in H. discriminate.
  - split; intros H; injection H as ->; reflexivity.
Qed.

Lemma unset_bounds_raise_at_first_ratio_witness :
  main two_unset_args [file_C; file_A; file_B] = Raise ConfigurationError.
Proof.
  apply (unset_bounds_raise_at_first_ratio two_unset_args
           [file_C; file_A; file_B]).
  - reflexivity.
  - left. reflexivity.
  - exists [file_C], file_A, [file_B], file_C_locals.
    eexists. exists 10%float.
    repeat split; vm_compute; reflexivity.
Defined.

(** ** The table *)

Lemma unique_step_length (xs seen : list float) :
  (List.length seen <= List.length (fold_left unique_step xs seen))%nat.
Proof.
  revert seen. induction xs as [| x xs IH]; intros seen; simpl; [lia |].
  etransitivity; [| apply IH]. unfold unique_step.
  destruct (existsb (PrimFloat.eqb x) seen); [lia |].
  rewrite length_app. simpl. lia.
Qed.

(** Starting from one value seen, no second one is found exactly when
    every further value equals it. *)
Lemma unique_from_one (h : float) (xs : list float) :
  List.length (fold_left unique_step xs [h]) = 1%nat <->
  forall x, In x xs -> PrimFloat.eqb x h = true.
Proof.
  induction xs as [| x xs IH]; simpl.
  - split; [intros _ y [] | reflexivity].
  - unfold unique_step at 2. simpl. rewrite orb_false_r.
    destruct (PrimFloat.eqb x h) eqn:E.
    + rewrite IH. split.
      * intros H y [<- | Hy]; [exact E | apply H; exact Hy].
      * intros H y Hy. apply H. right. exact Hy.
    + split.
      * intros H. pose proof (unique_step_length xs [h; x]) as L.
        simpl in L. lia.
      * intros H. specialize (H x (or_introl eq_refl)). congruence.
Qed.

Lemma dropna_not_nan (xs : list (option float)) (x : float) :
  In x (dropna xs) -> PrimFloat.eqb x x = true.
Proof.
  unfold dropna. rewrite in_flat_map. intros ([f |] & _ & H); [| destruct H].
  destruct (is_nan f) eqn:E; [destruct H |].
  destruct H as [<- | []]. unfold is_nan in E.
  apply negb_false_iff in E. exact E.
Qed.

(** Line 210 holds exactly when the batch has a defined threshold and all
    its defined thresholds are equal. *)
Lemma single_threshold_value_spec (data : list row) :
  single_threshold_value data = true <->
  defined_thresholds data <> []
  /\ forall x y,
       In x (defined_thresholds data) -> In y (defined_thresholds data) ->
       PrimFloat.eqb x y = true.
Proof.
  unfold single_threshold_value, defined_thresholds.
  pose proof (dropna_not_nan (map row_threshold data)) as Hnan.
  destruct (dropna (map row_threshold data)) as [| h xs].
  - simpl. split; [discriminate | intros [H _]; congruence].
  - rewrite Nat.eqb_eq. unfold unique. simpl fold_left at 1.
    change (unique_step [] h) with [h]. rewrite unique_from_one. split.
    + intros H. split; [discriminate |].
      assert (forall x, In x (h :: xs) -> PrimFloat.eqb x h = true) as Hh.
      { intros x [<- | Hx]; [apply Hnan; left; reflexivity | apply H; exact Hx]. }
      intros x y Hx Hy.
      apply (FloatFacts.eqb_trans x h y); [apply Hh; exact Hx |].
      rewrite FloatFacts.eqb_sym. apply Hh. exact Hy.
    + intros [_ H] x Hx. apply H; [right; exact Hx | left; reflexivity].
Qed.





(** * Further properties of [main] *)

(** ** Strings: [in], [split], [int], [splitext] *)

Lemma prefix_app_iff (sub s : string) :
  prefix sub s = true <-> exists post, s = (sub ++ post)%string.
Proof.
  revert s. induction sub as [| c sub IH]; intros s.
  - destruct s; simpl; split; eauto.
  - destruct s as [| c' s]; simpl.
    + split; [discriminate | intros (post & H); discriminate].
    + destruct (ascii_dec c c') as [<- | Hne].
      * rewrite IH. split; intros (post & H); exists post.
        -- rewrite H. reflexivity.
        -- injection H as H. exact H.
      * split; [discriminate |]. intros (post & H). injection H as H _.
        congruence.
Qed.

Lemma contains_nil (sub : string) :
  Py.contains sub EmptyString = prefix sub EmptyString.
Proof. unfold Py.contains. apply orb_false_r. Qed.

Lemma contains_cons (sub : string) (c : ascii) (s : string) :
  Py.contains sub (String c s) =
    prefix sub (String c s) || Py.contains sub s.
Proof. reflexivity. Qed.

Lemma contains_occurs (sub s : string) :
  Py.contains sub s = true <->
  exists pre post, s = (pre ++ sub ++ post)%string.
Proof.
  split.
  - induction s as [| c s IH]; intros H.
    + rewrite contains_nil in H. apply prefix_app_iff in H.
      destruct H as (post & H). exists EmptyString, post. exact H.
    + rewrite contains_cons in H.
      apply orb_true_iff in H. destruct H as [H | H].
      * apply prefix_app_iff in H. destruct H as (post & H).
        exists EmptyString, post. exact H.
      * destruct (IH H) as (pre & post & ->).
        exists (String c pre), post. reflexivity.
  - intros (pre & post & ->).
    induction pre as [| c pre IH].
    + assert (prefix sub (sub ++ post)%string = true) as Hp
        by (apply prefix_app_iff; eauto).
      change (EmptyString ++ sub ++ post)%string with (sub ++ post)%string.
      destruct (sub ++ post)%string.
      * rewrite contains_nil. exact Hp.
      * rewrite contains_cons, Hp. reflexivity.
    + change (String c pre ++ sub ++ post)%string
        with (String c (pre ++ sub ++ post)).
      rewrite contains_cons, IH. apply orb_true_r.
Qed.

(** X1: [sub in s] holds exactly when [s] is some text, then [sub], then
    some text: a line is attributed by any occurrence of the name in it,
    in whatever column and inside whatever longer name. *)
Theorem contains_iff_occurs (sub s : string) :
  Py.contains sub s = true <->
  exists pre post, s = (pre ++ sub ++ post)%string.
Proof.
  exact (contains_occurs sub s).
Qed.

Lemma split_tab_nonempty (s : string) : Py.split_tab s <> [].
Proof.
  destruct s as [| c s]; simpl; [discriminate |].
  destruct (Ascii.eqb c Py.tab); [discriminate |].
  destruct (Py.split_tab s); discriminate.
Qed.

(** X2: [split('\t')] loses nothing and cuts at every tab: joining the
    fields with tabs gives the line back, and no field holds a tab. *)
Theorem split_tab_join (s : string) :
  String.concat (String Py.tab EmptyString) (Py.split_tab s) = s
  /\ Forall (fun f => mentions Py.tab f = false) (Py.split_tab s).
Proof.
  induction s as [| c s [IHc IHf]]; simpl.
  - split; [reflexivity | repeat constructor].
  - pose proof (split_tab_nonempty s) as Hne.
    destruct (Ascii.eqb c Py.tab) eqn:E.
    + apply Ascii.eqb_eq in E. subst c. split.
      * destruct (Py.split_tab s) as [| f fs]; [congruence |].
        simpl in *. rewrite IHc. reflexivity.
      * constructor; [reflexivity | exact IHf].
    + destruct (Py.split_tab s) as [| f fs]; [congruence |]. split.
      * destruct fs as [| g gs]; simpl in *; rewrite IHc; reflexivity.
      * inversion IHf as [| ? ? Hf Hfs]; subst.
        constructor; [| exact Hfs]. simpl. rewrite E, Hf. reflexivity.
Qed.

Lemma list_ascii_of_string_app (s t : string) :
  list_ascii_of_string (s ++ t)%string =
    list_ascii_of_string s ++ list_ascii_of_string t.
Proof.
  induction s as [| c s IH]; simpl; [reflexivity | rewrite IH; reflexivity].
Qed.

Lemma lstrip_snoc_space (cs : list ascii) (c : ascii) :
  Py.is_space c = true ->
  Py.lstrip (cs ++ [c]) =
    match Py.lstrip cs with
    | [] => []
    | l => l ++ [c]
    end.
Proof.
  intros Hc. induction cs as [| x cs IH]; simpl.
  - rewrite Hc. reflexivity.
  - destruct (Py.is_space x); [exact IH | reflexivity].
Qed.

Lemma strip_snoc_space (cs : list ascii) (c : ascii) :
  Py.is_space c = true -> Py.strip (cs ++ [c]) = Py.strip cs.
Proof.
  intros Hc. unfold Py.strip. rewrite (lstrip_snoc_space _ _ Hc).
  destruct (Py.lstrip cs) as [| x l]; [reflexivity |].
  rewrite rev_app_distr. simpl rev at 1. simpl app. simpl Py.lstrip at 1.
  rewrite Hc. reflexivity.
Qed.

(** X3: [int] does not see a white-space character after the digits: the
    count read from a line that ends right after its third field, where the
    field keeps the line end, is the count read without the line end. *)
Theorem int_ignores_trailing_space (s : string) (c : ascii) :
  Py.is_space c = true ->
  Py.int (s ++ String c EmptyString) = Py.int s.
Proof.
  intros Hc. unfold Py.int.
  rewrite list_ascii_of_string_app. simpl list_ascii_of_string at 2.
  rewrite (strip_snoc_space _ _ Hc). reflexivity.
Qed.

Lemma int_ignores_trailing_space_witness :
  Py.int (String.append "50" (String Py.newline EmptyString)) = Ok 50.
Proof.
  rewrite (int_ignores_trailing_space "50" Py.newline); reflexivity.
Defined.

Lemma string_of_list_ascii_app (xs ys : list ascii) :
  string_of_list_ascii (xs ++ ys) =
    (string_of_list_ascii xs ++ string_of_list_ascii ys)%string.
Proof.
  induction xs as [| x xs IH]; simpl; [reflexivity | rewrite IH; reflexivity].
Qed.

Lemma splitext_aux_app (rest : list ascii) :
  forall stem seen root ext,
    Py.splitext_aux stem rest seen = Some (root, ext) ->
    root ++ ext = rev stem ++ rest.
Proof.
  induction rest as [| c rest IH]; intros stem seen root ext H; simpl in H.
  - discriminate.
  - destruct (Py.splitext_aux (c :: stem) rest
                (seen || negb (Ascii.eqb c "."%char))) as [[r x] |] eqn:E.
    + injection H as <- <-. rewrite (IH _ _ _ _ E). simpl.
      rewrite <- app_assoc. reflexivity.
    + destruct (Ascii.eqb c "."%char && seen); [| discriminate].
      injection H as <- <-. reflexivity.
Qed.

Lemma splitext_app (name : string) :
  (fst (Py.splitext name) ++ snd (Py.splitext name))%string = name.
Proof.
  unfold Py.splitext.
  destruct (Py.splitext_aux [] (list_ascii_of_string name) false)
    as [[root ext] |] eqn:E; simpl.
  - rewrite <- string_of_list_ascii_app, (splitext_aux_app _ _ _ _ _ E).
    simpl. apply string_of_list_ascii_of_string.
  - clear E. induction name as [| c name IH]; simpl; [| rewrite IH];
      reflexivity.
Qed.

(** X4: a file that passes the filter of lines 136-137 is named by its
    sample name followed by the configured extension; with the empty
    extension the sample name is the file name. *)
Theorem selected_name (a : args) (e : entry) :
  selected a e = true ->
  (sample_name e ++ args_ext a)%string = file_name e
  /\ Py.startswith_dot (file_name e) = false.
Proof.
  unfold selected, sample_name. intros H.
  apply andb_true_iff in H. destruct H as [Hdot Hext].
  apply negb_true_iff in Hdot. apply String.eqb_eq in Hext.
  rewrite <- Hext. split; [apply splitext_app | exact Hdot].
Qed.

Lemma selected_name_witness :
  (sample_name file_A ++ args_ext default_args)%string = file_name file_A
  /\ Py.startswith_dot (file_name file_A) = false.
Proof.
  apply (selected_name default_args file_A). vm_compute. reflexivity.
Defined.

(** ** The directory loop *)

Lemma loop_filter (a : args) (es : list entry) :
  forall fr data,
    loop a fr data (filter (selected a) es) = loop a fr data es.
Proof.
  induction es as [| e es IH]; intros fr data; simpl; [reflexivity |].
  destruct (selected a e) eqn:E; simpl; [rewrite E | apply IH].
  destruct (process_sample a fr e) as [[fr' rw] | ex]; simpl;
    [apply IH | reflexivity].
Qed.

(** X5: entries that the filter of lines 136-137 skips have no effect on
    the run: the table, or the exception, is that of the run on the
    selected entries alone. *)
Theorem main_ignores_unselected (a : args) (es : list entry) :
  main a (filter (selected a) es) = main a es.
Proof.
  unfold main. rewrite loop_filter. reflexivity.
Qed.

Lemma process_sample_row_id (a : args) (fr fr' : locals) (e : entry)
  (rw : row) :
  process_sample a fr e = Ok (fr', rw) -> row_id rw = sample_name e.
Proof.
  unfold process_sample, sample_name. intros H.
  apply bind_Ok_inv in H. destruct H as (fr1 & _ & H).
  apply bind_Ok_inv in H. destruct H as (fr2 & _ & H).
  apply bind_Ok_inv in H. destruct H as (rw' & Hrow & H).
  injection H as _ <-.
  unfold make_row in Hrow.
  apply bind_Ok_inv in Hrow. destruct Hrow as (sx & _ & Hrow).
  apply bind_Ok_inv in Hrow. destruct Hrow as (r & _ & Hrow).
  apply bind_Ok_inv in Hrow. destruct Hrow as (t & _ & Hrow).
  injection Hrow as <-. reflexivity.
Qed.

(** The loop only appends: the rows collected so far stay, and one row is
    added per selected entry, in the order of the directory listing. *)
Lemma loop_rows (a : args) (es : list entry) :
  forall fr data fr' data',
    loop a fr data es = Ok (fr', data') ->
    exists new,
      data' = data ++ new
      /\ map row_id new = map sample_name (filter (selected a) es).
Proof.
  induction es as [| e es IH]; intros fr data fr' data' H; simpl in H.
  - injection H as <- <-. exists []. rewrite app_nil_r. split; reflexivity.
  - simpl. destruct (selected a e).
    + destruct (process_sample a fr e) as [[fr1 rw] | ex] eqn:Ep; simpl in H;
        [| discriminate].
      destruct (IH _ _ _ _ H) as (new & -> & Hids).
      exists (rw :: new). rewrite <- app_assoc. split; [reflexivity |].
      simpl. rewrite Hids, (process_sample_row_id _ _ _ _ _ Ep). reflexivity.
    + apply IH in H. exact H.
Qed.

(** X6: when the run returns, the table has one row per selected entry, in
    the order of the directory listing, headed by the entry's sample name;
    and every row has as many cells as the header has columns. *)
Theorem table_rows (a : args) (es : list entry) (t : table) :
  main a es = Ok t ->
  map (fun cs => nth_error cs 0) (body t) =
    map (fun e => Some (CStr (sample_name e))) (filter (selected a) es)
  /\ Forall (fun cs => List.length cs = List.length (header t)) (body t).
Proof.
  unfold main. intros H.
  apply bind_Ok_inv in H. destruct H as ([fr data] & Hl & H).
  destruct (loop_rows _ _ _ _ _ _ Hl) as (new & Hd & Hids).
  simpl in Hd. subst new.
  rewrite <- (map_map sample_name (fun n => Some (CStr n))), <- Hids.
  unfold write_table in H.
  destruct (single_threshold_value data).
  - apply bind_Ok_inv in H. destruct H as (th & _ & H). injection H as <-.
    simpl. rewrite !map_map. split; [reflexivity |].
    apply Forall_map, Forall_forall. intros rw _. reflexivity.
  - injection H as <-. simpl. rewrite !map_map. split; [reflexivity |].
    apply Forall_map, Forall_forall. intros rw _. reflexivity.
Qed.

Lemma table_rows_witness :
  exists t,
    main default_args [file_A; file_C; file_E] = Ok t
    /\ map (fun cs => nth_error cs 0) (body t) =
         [Some (CStr "A"); Some (CStr "C"); Some (CStr "E")]
    /\ Forall (fun cs => List.length cs = List.length (header t)) (body t).
Proof.
  eexists. split; [vm_compute; reflexivity |].
  apply (table_rows default_args [file_A; file_C; file_E]).
  vm_compute. reflexivity.
Defined.

(** X7: an exception raised while a selected entry is processed ends the
    run with that exception, whatever rows were collected before it and
    whatever entries follow: no table is written. *)
Theorem sample_exception_aborts (a : args) (pre post : list entry)
  (e : entry) (fr : locals) (data : list row) (ex : exn) :
  loop a entry_locals [] pre = Ok (fr, data) ->
  selected a e = true ->
  process_sample a fr e = Raise ex ->
  main a (pre ++ e :: post) = Raise ex.
Proof.
  intros Hpre Hsel Hex. unfold main.
  rewrite loop_app, Hpre. simpl. rewrite Hsel, Hex. reflexivity.
Qed.

Lemma sample_exception_aborts_witness :
  main default_args ([file_A] ++ file_bad :: [file_C]) = Raise ValueError.
Proof.
  apply (sample_exception_aborts default_args [file_A] [file_C] file_bad
           after_A_locals
           [ {| row_id := "A"; row_sex := male;
                row_nreads_ychrom := Some 50; row_nreads_xchrom := Some 5;
                row_ratio := Some 10%float;
                row_threshold := Some 0.125%float |} ]);
    vm_compute; reflexivity.
Defined.

(** ** The scan: malformed lines *)

Lemma scan_line_attributed (a : args) (fr : locals) (line : string) :
  attributed_y a line || attributed_x a line = true ->
  forall ex, stats_of line = Raise ex -> scan_line a fr line = Raise ex.
Proof.
  intros Hatt ex Hst.
  destruct (attributed_y a line) eqn:Ey.
  - rewrite (scan_line_y _ _ _ Ey), Hst. reflexivity.
  - simpl in Hatt. rewrite (scan_line_x _ _ _ Hatt), Hst. reflexivity.
Qed.

(** X8: the scan of a file returns exactly when every line that holds a
    chromosome name has integers in its second and third fields; otherwise
    it raises what the first line without them raises, and the lines after
    it are not read. *)
Theorem scan_file_returns_iff (a : args) (fr : locals) (lines : list string) :
  ((exists fr', scan_file a fr lines = Ok fr') <->
   forallb (well_formed a) lines = true)
  /\ forall good line rest ex,
       lines = good ++ line :: rest ->
       forallb (well_formed a) good = true ->
       attributed_y a line || attributed_x a line = true ->
       stats_of line = Raise ex ->
       scan_file a fr lines = Raise ex.
Proof.
  split.
  - split.
    + intros (fr' & H). unfold scan_file in H.
      apply scan_lines_Ok in H. destruct H as [H _]. exact H.
    + intros H. apply scan_lines_total. exact H.
  - intros good line rest ex -> Hgood Hatt Hst. unfold scan_file.
    rewrite scan_lines_app.
    destruct (scan_lines_total a good
                (set_nreads_xchrom None (set_nreads_ychrom None fr)) Hgood)
      as (fr1 & ->).
    simpl. rewrite (scan_line_attributed _ _ _ Hatt _ Hst). reflexivity.
Qed.

(** X9: a line that holds a chromosome name and has fewer than three
    tab-separated fields raises IndexError; one with three fields whose
    third is not an integer raises ValueError. *)
Theorem attributed_line_errors (a : args) (fr : locals) (line : string) :
  attributed_y a line || attributed_x a line = true ->
  ((List.length (Py.split_tab line) <= 2)%nat ->
   scan_line a fr line = Raise IndexError)
  /\ (forall f, nth_error (Py.split_tab line) 2 = Some f ->
                Py.int f = Raise ValueError ->
                scan_line a fr line = Raise ValueError).
Proof.
  intros Hatt. split.
  - intros Hlen. apply (scan_line_attributed _ _ _ Hatt).
    unfold stats_of, int_field, Py.index.
    destruct (nth_error (Py.split_tab line) 2) eqn:E; [| reflexivity].
    assert (2 < List.length (Py.split_tab line))%nat
      by (apply nth_error_Some; congruence).
    lia.
  - intros f Hf Hint. apply (scan_line_attributed _ _ _ Hatt).
    unfold stats_of, int_field, Py.index. rewrite Hf. simpl. rewrite Hint.
    reflexivity.
Qed.

Lemma attributed_line_errors_witness :
  scan_line default_args entry_locals "chrY" = Raise IndexError.
Proof.
  apply (attributed_line_errors default_args entry_locals "chrY");
    [vm_compute; reflexivity | simpl; lia].
Defined.

Lemma scan_file_returns_iff_witness :
  scan_file default_args entry_locals (file_lines file_bad) = Raise ValueError.
Proof.
  apply (proj2 (scan_file_returns_iff default_args entry_locals
                  (file_lines file_bad))
           [] (line_of ["chrY"; "1000"; "n/a"; "0"])
           [line_of ["chrX"; "2000"; "5"; "0"]]);
    vm_compute; reflexivity.
Defined.

(** ** Samples without a match *)

Lemma last_match_none (p : string -> bool) (lines : list string) :
  forallb (fun l => negb (p l)) lines = true -> last_match p lines = None.
Proof.
  intros H. unfold last_match.
  destruct (find p (rev lines)) as [l |] eqn:E; [| reflexivity].
  apply find_some in E. destruct E as [Hin Hp].
  apply in_rev in Hin. rewrite forallb_forall in H.
  specialize (H l Hin). rewrite Hp in H. discriminate.
Qed.

(** X10: a file none of whose lines holds the Y name, or none of whose
    lines is attributed to X, never ends the run: whatever the samples
    before it left, its row is added with sex undetermined and no ratio and
    no threshold. *)
Theorem no_match_row (a : args) (fr : locals) (e : entry) :
  forallb (well_formed a) (file_lines e) = true ->
  forallb (fun l => negb (attributed_y a l)) (file_lines e) = true
  \/ forallb (fun l => negb (attributed_x a l)) (file_lines e) = true ->
  exists fr' rw,
    process_sample a fr e = Ok (fr', rw)
    /\ row_id rw = sample_name e
    /\ row_sex rw = undetermined
    /\ row_ratio rw = None
    /\ row_threshold rw = None
    /\ ratio fr' = Bound None
    /\ threshold fr' = Bound None.
Proof.
  intros Hwf Hno.
  destruct (scan_lines_total a (file_lines e)
              (set_nreads_xchrom None (set_nreads_ychrom None fr)) Hwf)
    as (fr1 & Hs).
  destruct (scan_lines_Ok _ _ _ _ Hs) as (_ & Hy & Hx & _).
  assert (nreads_ychrom fr1 = None \/ nreads_xchrom fr1 = None) as Hnone.
  { unfold stats_at in Hy, Hx. destruct Hno as [Hn | Hn];
      apply last_match_none in Hn; [left | right].
    - rewrite Hn in Hy. simpl in Hy. unfold retained_y in Hy.
      injection Hy as Hy _. exact Hy.
    - rewrite Hn in Hx. simpl in Hx. unfold retained_x in Hx.
      injection Hx as Hx _. exact Hx. }
  rewrite (process_sample_name_missing a fr e fr1 Hs Hnone).
  do 2 eexists. split; [reflexivity |]. repeat split; reflexivity.
Qed.

Lemma no_match_row_witness :
  exists fr' rw,
    process_sample default_args after_A_locals file_C = Ok (fr', rw)
    /\ row_id rw = sample_name file_C
    /\ row_sex rw = undetermined
    /\ row_ratio rw = None
    /\ row_threshold rw = None
    /\ ratio fr' = Bound None
    /\ threshold fr' = Bound None.
Proof.
  apply (no_match_row default_args after_A_locals file_C);
    [| left]; vm_compute; reflexivity.
Defined.

Lemma string_app_assoc (s t u : string) :
  ((s ++ t) ++ u)%string = (s ++ t ++ u)%string.
Proof.
  induction s as [| c s IH]; simpl; [reflexivity | rewrite IH; reflexivity].
Qed.

Lemma contains_trans (s t u : string) :
  Py.contains s t = true -> Py.contains t u = true -> Py.contains s u = true.
Proof.
  rewrite !contains_occurs.
  intros (p1 & q1 & ->) (p2 & q2 & ->).
  exists (p2 ++ p1)%string, (q1 ++ q2)%string.
  rewrite !string_app_assoc. reflexivity.
Qed.

(** X11: when the Y name occurs inside the X name (as with [-y chr -x chrX]),
    every line that holds the X name is attributed to Y: no line is
    attributed to X, and every sample whose lines can be read gets an
    undetermined row with no ratio. *)
Theorem y_name_inside_x_name (a : args) (fr : locals) (e : entry) :
  Py.contains (args_ychrom a) (args_xchrom a) = true ->
  forallb (well_formed a) (file_lines e) = true ->
  (forall line, attributed_x a line = false)
  /\ exists fr' rw,
       process_sample a fr e = Ok (fr', rw)
       /\ row_sex rw = undetermined
       /\ row_nreads_xchrom rw = None
       /\ row_ratio rw = None.
Proof.
  intros Hyx Hwf.
  assert (forall line, attributed_x a line = false) as Hx.
  { intros line. unfold attributed_x.
    destruct (Py.contains (args_xchrom a) line) eqn:E;
      [| apply andb_false_r].
    rewrite (contains_trans _ _ _ Hyx E). reflexivity. }
  split; [exact Hx |].
  assert (forallb (fun l => negb (attributed_x a l)) (file_lines e) = true)
    as Hno.
  { apply forallb_forall. intros l _. rewrite Hx. reflexivity. }
  destruct (scan_lines_total a (file_lines e)
              (set_nreads_xchrom None (set_nreads_ychrom None fr)) Hwf)
    as (fr1 & Hs).
  destruct (scan_lines_Ok _ _ _ _ Hs) as (_ & _ & Hrx & _).
  unfold stats_at in Hrx. rewrite (last_match_none _ _ Hno) in Hrx.
  simpl in Hrx. unfold retained_x in Hrx. injection Hrx as Hrx _.
  rewrite (process_sample_name_missing a fr e fr1 Hs (or_intror Hrx)).
  do 2 eexists. split; [reflexivity |]. simpl. repeat split. exact Hrx.
Qed.

Lemma y_name_inside_x_name_witness :
  (forall line, attributed_x chr_args line = false)
  /\ exists fr' rw,
       process_sample chr_args entry_locals file_A = Ok (fr', rw)
       /\ row_sex rw = undetermined
       /\ row_nreads_xchrom rw = None
       /\ row_ratio rw = None.
Proof.
  apply (y_name_inside_x_name chr_args entry_locals file_A);
    vm_compute; reflexivity.
Defined.

(** ** Samples below a minimum, samples with a sex *)

(** X12: a sample whose names are found and whose counts do not reach the
    minimums gets the label undetermined with the ratio and the threshold
    that the samples before it left in the locals; when no sample before it
    assigned them, the run ends with UnboundLocalError. *)
Theorem below_floor_row (a : args) (fr : locals) (e : entry) (fr1 : locals)
  (ny nx : Z) :
  scan_file a fr (file_lines e) = Ok fr1 ->
  nreads_ychrom fr1 = Some ny -> nreads_xchrom fr1 = Some nx ->
  floors_met a ny nx = false ->
  (forall r t,
     ratio fr = Bound r -> threshold fr = Bound t ->
     process_sample a fr e =
       Ok (set_sex undetermined fr1,
           {| row_id := sample_name e; row_sex := undetermined;
              row_nreads_ychrom := Some ny; row_nreads_xchrom := Some nx;
              row_ratio := r; row_threshold := t |}))
  /\ (ratio fr = Unbound \/ threshold fr = Unbound ->
      process_sample a fr e = Raise UnboundLocalError).
Proof.
  intros Hs Hy Hx Hf.
  rewrite (process_sample_below_floor a fr e fr1 ny nx Hs Hy Hx Hf).
  split.
  - intros r t -> ->. reflexivity.
  - intros [-> | ->]; [reflexivity |]. destruct (ratio fr); reflexivity.
Qed.

Lemma below_floor_row_witness :
  process_sample default_args after_A_locals file_B =
    Ok (set_sex undetermined
          {| nreads_ychrom := Some 50; nreads_xchrom := Some 0;
             seqlen_ychrom := Bound 1000; seqlen_xchrom := Bound 4000;
             sex := Bound male; ratio := Bound (Some 10%float);
             threshold := Bound (Some 0.125%float) |},
        {| row_id := sample_name file_B; row_sex := undetermined;
           row_nreads_ychrom := Some 50; row_nreads_xchrom := Some 0;
           row_ratio := Some 10%float;
           row_threshold := Some 0.125%float |}).
Proof.
  apply (proj1 (below_floor_row default_args after_A_locals file_B
                  {| nreads_ychrom := Some 50; nreads_xchrom := Some 0;
                     seqlen_ychrom := Bound 1000; seqlen_xchrom := Bound 4000;
                     sex := Bound male; ratio := Bound (Some 10%float);
                     threshold := Bound (Some 0.125%float) |}
                  50 0 eq_refl eq_refl eq_refl eq_refl));
    reflexivity.
Defined.

(** A sample that gets a row: how it was classified. *)
Lemma process_sample_Ok_inv (a : args) (fr fr' : locals) (e : entry)
  (rw : row) :
  process_sample a fr e = Ok (fr', rw) ->
  exists fr1,
    scan_file a fr (file_lines e) = Ok fr1
    /\ classify a fr1 = Ok fr'
    /\ make_row (sample_name e) fr' = Ok rw.
Proof.
  unfold process_sample, sample_name. intros H.
  apply bind_Ok_inv in H. destruct H as (fr1 & Hs & H).
  apply bind_Ok_inv in H. destruct H as (fr2 & Hc & H).
  apply bind_Ok_inv in H. destruct H as (rw' & Hrow & H).
  injection H as <- <-. eauto.
Qed.

Lemma make_row_fields (name : string) (fr : locals) (rw : row) :
  make_row name fr = Ok rw ->
  sex fr = Bound (row_sex rw)
  /\ ratio fr = Bound (row_ratio rw)
  /\ threshold fr = Bound (row_threshold rw)
  /\ row_nreads_ychrom rw = nreads_ychrom fr
  /\ row_nreads_xchrom rw = nreads_xchrom fr
  /\ row_id rw = name.
Proof.
  unfold make_row, read.
  destruct (sex fr); [discriminate |].
  destruct (ratio fr); [discriminate |].
  destruct (threshold fr); [discriminate |]. simpl.
  intros H. injection H as <-. repeat split; reflexivity.
Qed.

(** A row with a sex comes from the branch of line 171. *)
Lemma process_sample_sexed (a : args) (fr fr' : locals) (e : entry)
  (rw : row) :
  process_sample a fr e = Ok (fr', rw) ->
  row_sex rw <> undetermined ->
  exists fr1 ny nx r,
    scan_file a fr (file_lines e) = Ok fr1
    /\ nreads_ychrom fr1 = Some ny /\ nreads_xchrom fr1 = Some nx
    /\ floors_met a ny nx = true
    /\ compute_ratio ny nx = Ok r
    /\ classify a fr1 = Ok fr'
    /\ row_nreads_ychrom rw = Some ny /\ row_nreads_xchrom rw = Some nx
    /\ row_ratio rw = Some r.
Proof.
  intros H Hsex.
  destruct (process_sample_Ok_inv _ _ _ _ _ H) as (fr1 & Hs & Hc & Hrow).
  destruct (make_row_fields _ _ _ Hrow) as (Hsx & Hr & Ht & Hny & Hnx & _).
  exists fr1. pose proof Hc as Hc'. unfold classify in Hc.
  destruct (nreads_ychrom fr1) as [ny |] eqn:Ey;
    [| injection Hc as <-; simpl in Hsx; congruence].
  destruct (nreads_xchrom fr1) as [nx |] eqn:Ex;
    [| injection Hc as <-; simpl in Hsx; congruence].
  destruct ((ny <? args_min_y a)%Z || (nx <? args_min_x a)%Z) eqn:Ef;
    [injection Hc as <-; simpl in Hsx; congruence |].
  destruct (compute_ratio ny nx) as [r | ex] eqn:Er; [| discriminate].
  exists ny, nx, r. simpl in Hc.
  assert (ratio fr' = Bound (Some r) /\ nreads_ychrom fr' = Some ny
          /\ nreads_xchrom fr' = Some nx) as (Hr' & Hy' & Hx').
  { destruct (args_two_thresholds a).
    - destruct (args_lower_threshold a); [| discriminate].
      destruct (args_upper_threshold a); [| discriminate].
      injection Hc as <-. simpl. auto.
    - apply bind_Ok_inv in Hc. destruct Hc as (t & _ & Hc).
      injection Hc as <-. simpl. auto. }
  unfold floors_met. rewrite Ef.
  repeat split; try reflexivity; try assumption; try congruence.
Qed.

(** X13: every row labelled male or female belongs to a sample whose two
    names were found and whose counts reach the minimums, and its ratio is
    the ratio of its own two counts; in single-threshold mode it has a
    threshold as well. *)
Theorem sexed_row_has_own_ratio (a : args) (fr fr' : locals) (e : entry)
  (rw : row) :
  process_sample a fr e = Ok (fr', rw) ->
  row_sex rw <> undetermined ->
  exists ny nx r,
    row_nreads_ychrom rw = Some ny /\ row_nreads_xchrom rw = Some nx
    /\ floors_met a ny nx = true
    /\ compute_ratio ny nx = Ok r
    /\ sample_ratio a fr e = Some r
    /\ row_ratio rw = Some r
    /\ (args_two_thresholds a = false -> exists t, row_threshold rw = Some t).
Proof.
  intros H Hsex.
  destruct (process_sample_sexed _ _ _ _ _ H Hsex)
    as (fr1 & ny & nx & r & Hs & Hy & Hx & Hf & Hr & Hc & Hry & Hrx & Hrr).
  exists ny, nx, r. repeat split; try assumption.
  - unfold sample_ratio. rewrite Hs, Hy, Hx, Hf, Hr. reflexivity.
  - intros Hm.
    destruct (process_sample_Ok_inv _ _ _ _ _ H) as (fr1' & Hs' & _ & Hrow).
    destruct (make_row_fields _ _ _ Hrow) as (_ & _ & Ht & _).
    rewrite (classify_with_ratio _ _ _ _ _ Hy Hx Hf Hr) in Hc.
    simpl in Hc. rewrite Hm in Hc.
    apply bind_Ok_inv in Hc. destruct Hc as (t & _ & Hc).
    injection Hc as <-. simpl in Ht. exists t. congruence.
Qed.

Lemma sexed_row_has_own_ratio_witness :
  exists ny nx r,
    Some 1 = Some ny /\ Some 4 = Some nx
    /\ floors_met default_args ny nx = true
    /\ compute_ratio ny nx = Ok r
    /\ sample_ratio default_args after_A_locals file_E = Some r
    /\ Some 0.25%float = Some r
    /\ (args_two_thresholds default_args = false ->
        exists t, Some 0.0625%float = Some t).
Proof.
  apply (sexed_row_has_own_ratio default_args after_A_locals
           {| nreads_ychrom := Some 1; nreads_xchrom := Some 4;
              seqlen_ychrom := Bound 1000; seqlen_xchrom := Bound 4000;
              sex := Bound male; ratio := Bound (Some 0.25%float);
              threshold := Bound (Some 0.0625%float) |}
           file_E
           {| row_id := "E"; row_sex := male;
              row_nreads_ychrom := Some 1; row_nreads_xchrom := Some 4;
              row_ratio := Some 0.25%float;
              row_threshold := Some 0.0625%float |}).
  - vm_compute. reflexivity.
  - discriminate.
Defined.

(** The counts and lengths a scan retains for a chromosome that has a line
    in the file do not depend on the locals on entry. *)
Lemma scan_file_found_independent (a : args) (lines : list string)
  (fr fr2 fr1 fr1' : locals) (ny nx : Z) :
  scan_file a fr lines = Ok fr1 ->
  scan_file a fr2 lines = Ok fr1' ->
  nreads_ychrom fr1 = Some ny -> nreads_xchrom fr1 = Some nx ->
  retained_y fr1' = retained_y fr1 /\ retained_x fr1' = retained_x fr1.
Proof.
  unfold scan_file. intros Hs Hs' Hy Hx.
  destruct (scan_lines_Ok _ _ _ _ Hs) as (_ & Ry & Rx & _).
  destruct (scan_lines_Ok _ _ _ _ Hs') as (_ & Ry' & Rx' & _).
  rewrite Ry, Ry', Rx, Rx'.
  unfold retained_y, retained_x in *. simpl in *.
  destruct (stats_at last_match (attributed_y a) lines) as [[n l] |];
    [| simpl in Ry; congruence].
  destruct (stats_at last_match (attributed_x a) lines) as [[n' l'] |];
    [| simpl in Rx; congruence].
  split; reflexivity.
Qed.

(** X14: in single-threshold mode the row of a sample labelled male or
    female does not depend on the samples processed before it: from any
    other state of the locals the same file gives the same row. *)
Theorem sexed_row_independent (a : args) (fr fr' : locals) (e : entry)
  (rw : row) :
  args_two_thresholds a = false ->
  process_sample a fr e = Ok (fr', rw) ->
  row_sex rw <> undetermined ->
  forall fr2, exists fr2', process_sample a fr2 e = Ok (fr2', rw).
Proof.
  intros Hm H Hsex fr2.
  destruct (process_sample_sexed _ _ _ _ _ H Hsex)
    as (fr1 & ny & nx & r & Hs & Hy & Hx & Hf & Hr & Hc & _).
  assert (sample_ratio a fr e = Some r) as Hsr
    by (unfold sample_ratio; rewrite Hs, Hy, Hx, Hf, Hr; reflexivity).
  rewrite (classify_with_ratio _ _ _ _ _ Hy Hx Hf Hr) in Hc. simpl in Hc.
  rewrite Hm, single_threshold_set_ratio in Hc.
  apply bind_Ok_inv in Hc. destruct Hc as (t & Ht & _).
  rewrite (process_sample_single _ _ _ _ _ _ Hm Hsr Hs Ht) in H.
  injection H as _ <-.
  assert (forallb (well_formed a) (file_lines e) = true) as Hwf.
  { unfold scan_file in Hs. apply scan_lines_Ok in Hs. apply Hs. }
  destruct (scan_lines_total a (file_lines e)
              (set_nreads_xchrom None (set_nreads_ychrom None fr2)) Hwf)
    as (fr1' & Hs').
  destruct (scan_file_found_independent _ _ _ _ _ _ _ _ Hs Hs' Hy Hx)
    as [Ey Ex].
  unfold retained_y in Ey. unfold retained_x in Ex.
  injection Ey as Eny Esy. injection Ex as Enx Esx.
  assert (sample_ratio a fr2 e = Some r) as Hsr'.
  { unfold sample_ratio. unfold scan_file. rewrite Hs', Eny, Enx, Hy, Hx, Hf, Hr.
    reflexivity. }
  assert (single_threshold a fr1' = Ok t) as Ht'.
  { unfold single_threshold in *. rewrite Esy, Esx. exact Ht. }
  rewrite (process_sample_single _ _ _ _ _ _ Hm Hsr' Hs' Ht').
  eexists. rewrite Eny, Enx. reflexivity.
Qed.

Lemma sexed_row_independent_witness :
  exists fr2',
    process_sample default_args entry_locals file_E =
      Ok (fr2', {| row_id := "E"; row_sex := male;
                   row_nreads_ychrom := Some 1; row_nreads_xchrom := Some 4;
                   row_ratio := Some 0.25%float;
                   row_threshold := Some 0.0625%float |}).
Proof.
  apply (sexed_row_independent default_args after_A_locals
           {| nreads_ychrom := Some 1; nreads_xchrom := Some 4;
              seqlen_ychrom := Bound 1000; seqlen_xchrom := Bound 4000;
              sex := Bound male; ratio := Bound (Some 0.25%float);
              threshold := Bound (Some 0.0625%float) |}
           file_E) with (fr2 := entry_locals).
  - reflexivity.
  - vm_compute. reflexivity.
  - discriminate.
Defined.

(** ** Two-threshold mode *)

Lemma defined_thresholds_none (data : list row) :
  Forall (fun rw => row_threshold rw = None) data ->
  defined_thresholds data = [].
Proof.
  unfold defined_thresholds, dropna.
  induction 1 as [| rw data Hrw _ IH]; simpl; [reflexivity |].
  rewrite Hrw. exact IH.
Qed.

(** X15: in two-threshold mode no row ever has a threshold, so the test of
    line 210 fails and the table always keeps its threshold column, empty
    in every row. *)
Theorem two_thresholds_table (a : args) (es : list entry) (t : table) :
  args_two_thresholds a = true ->
  main a es = Ok t ->
  header t = col_names
  /\ Forall (fun cs => nth_error cs 5 = Some (CFloat None)) (body t).
Proof.
  intros Hm H. unfold main in H.
  apply bind_Ok_inv in H. destruct H as ([fr data] & Hl & H).
  assert (Forall (fun rw => row_threshold rw = None) data) as Hnone.
  { apply (loop_two_thresholds_threshold_absent a es Hm entry_locals [] fr data);
      [left; reflexivity | constructor | exact Hl]. }
  unfold write_table, single_threshold_value in H.
  fold (defined_thresholds data) in H.
  rewrite (defined_thresholds_none _ Hnone) in H. simpl in H.
  injection H as <-. simpl. split; [reflexivity |].
  apply Forall_map. eapply Forall_impl; [| exact Hnone].
  intros rw Hrw. simpl. rewrite Hrw. reflexivity.
Qed.

Lemma two_thresholds_table_witness :
  exists t,
    main two_args [file_C; file_A; file_D] = Ok t
    /\ header t = col_names
    /\ Forall (fun cs => nth_error cs 5 = Some (CFloat None)) (body t).
Proof.
  eexists. split; [vm_compute; reflexivity |].
  apply (two_thresholds_table two_args [file_C; file_A; file_D]);
    vm_compute; reflexivity.
Defined.

Lemma classify_found_two_thresholds (a : args) (fr1 fr2 : locals) (ny nx : Z) :
  args_two_thresholds a = true ->
  nreads_ychrom fr1 = Some ny -> nreads_xchrom fr1 = Some nx ->
  classify a fr1 = Ok fr2 ->
  threshold fr2 = threshold fr1.
Proof.
  intros Hm Hy Hx. unfold classify. rewrite Hm, Hy, Hx.
  case_if; [intros H; injection H as <-; reflexivity |].
  destruct (compute_ratio ny nx) as [r | ex]; simpl; [| discriminate].
  destruct (args_lower_threshold a); [| discriminate].
  destruct (args_upper_threshold a); [| discriminate].
  intros H. injection H as <-. reflexivity.
Qed.

(** X16: in two-threshold mode the run returns a table only when the first
    selected file has no line for Y or none for X: a first sample with both
    names found always ends the run with an exception, since line 203 reads
    a [threshold] that no branch taken for it assigns. *)
Theorem two_thresholds_first_sample (a : args) (es : list entry) (t : table)
  (e : entry) (rest : list entry) :
  args_two_thresholds a = true ->
  main a es = Ok t ->
  filter (selected a) es = e :: rest ->
  exists fr1,
    scan_file a entry_locals (file_lines e) = Ok fr1
    /\ (nreads_ychrom fr1 = None \/ nreads_xchrom fr1 = None).
Proof.
  intros Hm H Hfil. unfold main in H. rewrite <- loop_filter, Hfil in H.
  assert (selected a e = true) as Hsel.
  { assert (In e (filter (selected a) es)) as Hin
      by (rewrite Hfil; left; reflexivity).
    apply filter_In in Hin. apply Hin. }
  simpl in H. rewrite Hsel in H.
  destruct (process_sample a entry_locals e) as [[fr' rw] | ex] eqn:Ep;
    [| discriminate].
  destruct (process_sample_Ok_inv _ _ _ _ _ Ep) as (fr1 & Hs & Hc & Hrow).
  exists fr1. split; [exact Hs |].
  destruct (nreads_ychrom fr1) as [ny |] eqn:Ey; [| left; reflexivity].
  destruct (nreads_xchrom fr1) as [nx |] eqn:Ex; [| right; reflexivity].
  exfalso.
  pose proof (classify_found_two_thresholds _ _ _ _ _ Hm Ey Ex Hc) as Ht.
  unfold scan_file in Hs.
  destruct (scan_lines_Ok _ _ _ _ Hs) as (_ & _ & _ & _ & _ & Ht1).
  simpl in Ht1. rewrite Ht1 in Ht.
  destruct (make_row_fields _ _ _ Hrow) as (_ & _ & Hth & _).
  congruence.
Qed.

Lemma two_thresholds_first_sample_witness :
  exists fr1,
    scan_file two_args entry_locals (file_lines file_C) = Ok fr1
    /\ (nreads_ychrom fr1 = None \/ nreads_xchrom fr1 = None).
Proof.
  apply (two_thresholds_first_sample two_args [file_C; file_A; file_D]
           {| header := col_names;
              body :=
                [[CStr "C"; CSex undetermined; CInt None; CInt None;
                  CFloat None; CFloat None];
                 [CStr "A"; CSex male; CInt (Some 50); CInt (Some 5);
                  CFloat (Some 10%float); CFloat None];
                 [CStr "D"; CSex undetermined; CInt (Some 1); CInt (Some 4);
                  CFloat (Some 0.25%float); CFloat None]] |}
           file_C [file_A; file_D]);
    vm_compute; reflexivity.
Defined.

(** ** Division by zero *)

Lemma compute_ratio_zero (ny : Z) (fy : float) :
  Py.float ny = Ok fy -> compute_ratio ny 0 = Raise ZeroDivisionError.
Proof.
  intros Hy. unfold compute_ratio. rewrite Hy. reflexivity.
Qed.

(** X17: a sample with no read on X whose Y count fits a float ends the run
    with ZeroDivisionError exactly when the minimums let it through
    ([min_x <= 0] and [min_y <= nreads_y]); with the default [--min_x 1] the
    division is not reached for it. *)
Theorem zero_x_count (a : args) (fr : locals) (e : entry) (fr1 : locals)
  (ny : Z) (fy : float) :
  scan_file a fr (file_lines e) = Ok fr1 ->
  nreads_ychrom fr1 = Some ny -> nreads_xchrom fr1 = Some 0 ->
  Py.float ny = Ok fy ->
  process_sample a fr e = Raise ZeroDivisionError <->
  (args_min_y a <= ny /\ args_min_x a <= 0).
Proof.
  intros Hs Hy Hx Hfy.
  destruct (floors_met a ny 0) eqn:Hf.
  - assert (args_min_y a <= ny /\ args_min_x a <= 0) as Hmin.
    { unfold floors_met in Hf. apply negb_true_iff, orb_false_iff in Hf.
      destruct Hf as [H1 H2]. apply Z.ltb_ge in H1, H2. auto. }
    split; [intros _; exact Hmin | intros _].
    unfold process_sample. rewrite Hs. simpl.
    unfold classify. rewrite Hy, Hx. unfold floors_met in Hf.
    apply negb_true_iff in Hf. rewrite Hf, (compute_ratio_zero _ _ Hfy).
    reflexivity.
  - split.
    + rewrite (process_sample_below_floor a fr e fr1 ny 0 Hs Hy Hx Hf).
      destruct (ratio fr); simpl; [discriminate |].
      destruct (threshold fr); simpl; discriminate.
    + intros [H1 H2]. unfold floors_met in Hf. apply negb_false_iff in Hf.
      apply orb_true_iff in Hf. destruct Hf as [Hf | Hf];
        apply Z.ltb_lt in Hf; lia.
Qed.

Lemma zero_x_count_witness :
  process_sample min_x_0_args entry_locals file_B = Raise ZeroDivisionError.
Proof.
  apply (zero_x_count min_x_0_args entry_locals file_B
           {| nreads_ychrom := Some 50; nreads_xchrom := Some 0;
              seqlen_ychrom := Bound 1000; seqlen_xchrom := Bound 4000;
              sex := Unbound; ratio := Unbound; threshold := Unbound |}
           50 50%float);
    try (vm_compute; reflexivity).
  split; vm_compute; discriminate.
Defined.

(** X18: in single-threshold mode with no fixed threshold, a sample whose
    ratio is computed and whose X line gives the length 0 ends the run with
    ZeroDivisionError (the Y length fitting a float). *)
Theorem zero_x_length (a : args) (fr : locals) (e : entry) (fr1 : locals)
  (r : float) (sy : Z) (fsy : float) :
  args_two_thresholds a = false ->
  args_threshold a = None ->
  scan_file a fr (file_lines e) = Ok fr1 ->
  sample_ratio a fr e = Some r ->
  seqlen_ychrom fr1 = Bound sy -> seqlen_xchrom fr1 = Bound 0 ->
  Py.float sy = Ok fsy ->
  process_sample a fr e = Raise ZeroDivisionError.
Proof.
  intros Hm Hn Hs Hr Hsy Hsx Hf.
  destruct (sample_ratio_scan _ _ _ _ _ Hr Hs) as (ny & nx & Hy & Hx & Hfl & Hc).
  unfold process_sample. rewrite Hs. simpl.
  rewrite (classify_with_ratio _ _ _ _ _ Hy Hx Hfl Hc). simpl.
  rewrite Hm. unfold single_threshold. simpl.
  rewrite Hn, Hsy, Hsx. simpl. rewrite Hf. reflexivity.
Qed.

Lemma zero_x_length_witness :
  process_sample default_args entry_locals file_len0 = Raise ZeroDivisionError.
Proof.
  apply (zero_x_length default_args entry_locals file_len0
           {| nreads_ychrom := Some 50; nreads_xchrom := Some 5;
              seqlen_ychrom := Bound 1000; seqlen_xchrom := Bound 0;
              sex := Unbound; ratio := Unbound; threshold := Unbound |}
           10%float 1000 1000%float);
    vm_compute; reflexivity.
Defined.

(** ** A fixed threshold *)

Lemma process_sample_fixed (a : args) (t : float) (fr fr' : locals)
  (e : entry) (rw : row) :
  args_two_thresholds a = false ->
  args_threshold a = Some t ->
  threshold_fixed t (threshold fr) ->
  process_sample a fr e = Ok (fr', rw) ->
  threshold_fixed t (threshold fr')
  /\ (row_threshold rw = None \/ row_threshold rw = Some t).
Proof.
  intros Hm Ht Hinv H.
  destruct (process_sample_Ok_inv _ _ _ _ _ H) as (fr1 & Hs & Hc & Hrow).
  destruct (make_row_fields _ _ _ Hrow) as (_ & _ & Hth & _).
  unfold scan_file in Hs.
  destruct (scan_lines_Ok _ _ _ _ Hs) as (_ & _ & _ & _ & _ & Ht1).
  simpl in Ht1.
  assert (threshold_fixed t (threshold fr')) as Hinv'.
  { unfold classify in Hc.
    destruct (nreads_ychrom fr1) as [ny |];
      [| injection Hc as <-; right; left; reflexivity].
    destruct (nreads_xchrom fr1) as [nx |];
      [| injection Hc as <-; right; left; reflexivity].
    destruct ((ny <? args_min_y a)%Z || (nx <? args_min_x a)%Z).
    - injection Hc as <-. simpl. rewrite Ht1. exact Hinv.
    - destruct (compute_ratio ny nx) as [r | ex]; [| discriminate].
      simpl in Hc. rewrite Hm in Hc. unfold single_threshold in Hc.
      rewrite Ht in Hc. simpl in Hc. injection Hc as <-.
      right; right; reflexivity. }
  split; [exact Hinv' |].
  destruct Hinv' as [E | [E | E]]; rewrite E in Hth; [discriminate | |];
    injection Hth as <-; auto.
Qed.

Lemma loop_fixed (a : args) (t : float) (es : list entry) :
  args_two_thresholds a = false ->
  args_threshold a = Some t ->
  forall fr data fr' data',
    threshold_fixed t (threshold fr) ->
    Forall (fun rw => row_threshold rw = None \/ row_threshold rw = Some t)
      data ->
    loop a fr data es = Ok (fr', data') ->
    Forall (fun rw => row_threshold rw = None \/ row_threshold rw = Some t)
      data'.
Proof.
  intros Hm Ht. induction es as [| x xs IH];
    intros fr data fr' data' Hinv Hd H; simpl in H.
  - injection H as <- <-. exact Hd.
  - destruct (selected a x); [| eapply IH; eassumption].
    destruct (process_sample a fr x) as [[fr1 rw] | ex] eqn:Ep; simpl in H;
      [| discriminate].
    destruct (process_sample_fixed _ _ _ _ _ _ Hm Ht Hinv Ep) as [Hinv1 Hrw].
    eapply IH; [exact Hinv1 | | exact H].
    apply Forall_app. split; [exact Hd | constructor; [exact Hrw | constructor]].
Qed.

Lemma dropna_In (xs : list (option float)) (x : float) :
  In x (dropna xs) <-> In (Some x) xs /\ PrimFloat.is_nan x = false.
Proof.
  unfold dropna. rewrite in_flat_map. split.
  - intros ([f |] & Hin & H); [| destruct H].
    destruct (is_nan f) eqn:E; [destruct H |].
    destruct H as [<- | []]. auto.
  - intros [Hin Hnan]. exists (Some x). split; [exact Hin |].
    rewrite Hnan. left. reflexivity.
Qed.

(** X19: with a fixed threshold [-t t] in single-threshold mode, every row
    has either no threshold or the threshold [t]; so, [t] not being NaN, the
    table omits the threshold column exactly when at least one row has a
    threshold. *)
Theorem fixed_threshold_rows (a : args) (t : float) (es : list entry)
  (fr : locals) (data : list row) :
  args_two_thresholds a = false ->
  args_threshold a = Some t ->
  loop a entry_locals [] es = Ok (fr, data) ->
  Forall (fun rw => row_threshold rw = None \/ row_threshold rw = Some t) data
  /\ (PrimFloat.eqb t t = true ->
      (single_threshold_value data = true <->
       exists rw, In rw data /\ row_threshold rw = Some t)).
Proof.
  intros Hm Ht Hl.
  assert (Forall (fun rw => row_threshold rw = None \/ row_threshold rw = Some t)
            data) as Hall.
  { apply (loop_fixed a t es Hm Ht entry_locals [] fr data);
      [left; reflexivity | constructor | exact Hl]. }
  split; [exact Hall |]. intros Hnan.
  assert (forall x, In x (defined_thresholds data) -> x = t) as Hdef.
  { intros x Hx. unfold defined_thresholds in Hx.
    apply dropna_In in Hx. destruct Hx as [Hx _].
    apply in_map_iff in Hx. destruct Hx as (rw & Hrw & Hin).
    rewrite Forall_forall in Hall. destruct (Hall rw Hin); congruence. }
  rewrite single_threshold_value_spec. split.
  - intros [Hne _].
    destruct (defined_thresholds data) as [| x xs] eqn:E; [congruence |].
    pose proof (Hdef x (or_introl eq_refl)) as ->.
    assert (In t (defined_thresholds data)) as Hx
      by (rewrite E; left; reflexivity).
    unfold defined_thresholds in Hx. apply dropna_In in Hx.
    destruct Hx as [Hx _]. apply in_map_iff in Hx.
    destruct Hx as (rw & Hrw & Hin). eauto.
  - intros (rw & Hin & Hrw). split.
    + assert (In t (defined_thresholds data)) as Hx.
      { unfold defined_thresholds. apply dropna_In. split.
        - rewrite <- Hrw. apply in_map. exact Hin.
        - unfold is_nan. rewrite Hnan. reflexivity. }
      intros E. rewrite E in Hx. destruct Hx.
    + intros x y Hx Hy. rewrite (Hdef x Hx), (Hdef y Hy). exact Hnan.
Qed.

Lemma fixed_threshold_rows_witness :
  Forall (fun rw => row_threshold rw = None \/ row_threshold rw = Some 0.5%float)
    fixed_rows
  /\ (PrimFloat.eqb 0.5 0.5 = true ->
      (single_threshold_value fixed_rows = true <->
       exists rw, In rw fixed_rows /\ row_threshold rw = Some 0.5%float)).
Proof.
  apply (fixed_threshold_rows fixed_args 0.5%float [file_C; file_A; file_E]
           {| nreads_ychrom := Some 1; nreads_xchrom := Some 4;
              seqlen_ychrom := Bound 1000; seqlen_xchrom := Bound 4000;
              sex := Bound female; ratio := Bound (Some 0.25%float);
              threshold := Bound (Some 0.5%float) |});
    vm_compute; reflexivity.
Defined.

(** ** The filter on file names *)

(** X20: when no entry of the directory passes the filter (an empty
    directory, only hidden files, no file of the extension), the run raises
    nothing and the table is the full header, threshold column included,
    with no row. *)
Theorem no_selected_file (a : args) (es : list entry) :
  filter (selected a) es = [] ->
  main a es = Ok {| header := col_names; body := [] |}.
Proof.
  intros H. unfold main. rewrite <- loop_filter, H. reflexivity.
Qed.

Lemma no_selected_file_witness :
  main default_args [hidden_file; file_other_ext] =
    Ok {| header := col_names; body := [] |}.
Proof.
  apply (no_selected_file default_args [hidden_file; file_other_ext]).
  vm_compute. reflexivity.
Defined.

Lemma splitext_aux_no_later_dot (rest : list ascii) :
  forall stem,
    Py.splitext_aux stem rest true = None ->
    mentions "."%char (string_of_list_ascii rest) = false.
Proof.
  induction rest as [| c rest IH]; intros stem H; simpl in *; [reflexivity |].
  destruct (Py.splitext_aux (c :: stem) rest true) as [p |] eqn:E;
    [discriminate |].
  rewrite andb_true_r in H.
  destruct (Ascii.eqb c "."%char); [discriminate |].
  simpl. apply (IH _ E).
Qed.

Lemma splitext_aux_ext (rest : list ascii) :
  forall stem seen root ext,
    Py.splitext_aux stem rest seen = Some (root, ext) ->
    exists x,
      ext = "."%char :: x
      /\ mentions "."%char (string_of_list_ascii x) = false.
Proof.
  induction rest as [| c rest IH]; intros stem seen root ext H; simpl in H.
  - discriminate.
  - destruct (Py.splitext_aux (c :: stem) rest
                (seen || negb (Ascii.eqb c "."%char))) as [[r x] |] eqn:E.
    + injection H as <- <-. eapply IH. exact E.
    + destruct (Ascii.eqb c "."%char) eqn:Ec; [| discriminate].
      destruct seen; [| discriminate].
      injection H as <- <-. apply Ascii.eqb_eq in Ec. subst c.
      exists rest. split; [reflexivity |].
      apply (splitext_aux_no_later_dot _ _ E).
Qed.

(** X21: the extension that line 137 compares with [--ext] is empty or is a
    dot followed by text without a dot. So a file is selected only for an
    [--ext] of that form: an extension given without its dot ([txt]) or with
    two dots ([.tar.gz]) selects no file at all. *)
Theorem selected_ext_form (a : args) (e : entry) :
  selected a e = true ->
  args_ext a = EmptyString
  \/ exists x,
       args_ext a = String "."%char x /\ mentions "."%char x = false.
Proof.
  unfold selected. intros H. apply andb_true_iff in H. destruct H as [_ H].
  apply String.eqb_eq in H. rewrite <- H. unfold Py.splitext.
  destruct (Py.splitext_aux [] (list_ascii_of_string (file_name e)) false)
    as [[root ext] |] eqn:E; simpl; [| left; reflexivity].
  right. destruct (splitext_aux_ext _ _ _ _ _ E) as (x & -> & Hx).
  exists (string_of_list_ascii x). split; [reflexivity | exact Hx].
Qed.

Lemma selected_ext_form_witness :
  args_ext default_args = EmptyString
  \/ exists x,
       args_ext default_args = String "."%char x
       /\ mentions "."%char x = false.
Proof.
  apply (selected_ext_form default_args file_A). vm_compute. reflexivity.
Defined.
